(** * SRP password-check payload of [src/tg_bot/botApi.js]

    A shallow embedding of [createPasswordCheckPayload], [getPasswordParams]
    and [getStarsRevenueWithdrawalUrl], together with the parts of their
    runtime they rely on: Node's [Buffer] and [crypto] (SHA-256, random
    bytes) and the [big-integer] package ([bigInt(text, 16)], [modPow],
    [subtract], [toArray], [toString]).

    Conventions.
    - A [Buffer] is a [list byte]; a JavaScript string is a [string], read
      as the UTF-8 bytes of its text.
    - A [bigInt] is a [Z]; an exponent handed to [modPow] is passed as a
      binary natural number, since this program only builds exponents from
      unsigned hexadecimal text (see [be_uint_bounds]).
    - [Buffer.concat] takes a list whose items are buffers or plain
      arrays, and throws a [TypeError] at the first item that is not a
      buffer, as Node does.
    - [bigInt(text, 16)] reads a decimal number between angle brackets as
      one digit, through the package's [parseValue]; that reader is a
      parameter of the model ([bigInt.Reader]).
    - A thrown exception, or a rejected promise once awaited, is the left
      injection of a sum; [console.log] and [console.error] leave no
      trace.
    - [crypto.randomBytes] reads an entropy tape held in the world, so a
      run is a function of the world it starts in. *)

From Stdlib Require Import ZArith List String Ascii Bool Lia DecimalString.
From Stdlib.Strings Require Import Byte.
Import ListNotations.

Local Open Scope Z_scope.

(* ===================================================================== *)
(** ** Bytes *)
(* ===================================================================== *)

Definition Buffer := list byte.

Definition Z_of_byte (b : byte) : Z := Z.of_N (Byte.to_N b).

(** Storing a number into a byte cell keeps its low eight bits. *)
Definition byte_of_Z (z : Z) : byte :=
  match Byte.of_N (Z.to_N (z mod 256)) with
  | Some b => b
  | None => x00
  end.

(** [Buffer.from(s, 'utf-8')]. *)
Definition Buffer_from_utf8 (s : string) : Buffer := list_byte_of_string s.

(** Big-endian value of a byte sequence. *)
Definition be_uint (bs : Buffer) : Z :=
  fold_left (fun acc b => acc * 256 + Z_of_byte b) bs 0.

(* ===================================================================== *)
(** ** Hexadecimal text *)
(* ===================================================================== *)

(** The digit alphabet of [big-integer], also the one of
    [Buffer.toString('hex')] on its first sixteen entries. *)
Definition DEFAULT_ALPHABET : string := "0123456789abcdefghijklmnopqrstuvwxyz".

(** [alphabet[d]], the character of a digit.  Digits beyond the alphabet
    do not occur in base 16 (nor in any base up to 36); they are rendered
    here as ["?"]. *)
Definition stringify (d : Z) : ascii :=
  match String.get (Z.to_nat d) DEFAULT_ALPHABET with
  | Some c => c
  | None => "?"%char
  end.

(** [buf.toString('hex')]: two lowercase digits per byte. *)
Fixpoint Buffer_toString_hex (bs : Buffer) : string :=
  match bs with
  | [] => EmptyString
  | b :: bs' =>
      String (stringify (Z_of_byte b / 16))
        (String (stringify (Z_of_byte b mod 16)) (Buffer_toString_hex bs'))
  end.

(** [String.prototype.toLowerCase] on one character (ASCII letters). *)
Definition toLowerCase_char (c : ascii) : ascii :=
  let n := nat_of_ascii c in
  if (andb (65 <=? n) (n <=? 90))%nat then ascii_of_nat (n + 32) else c.

(** Index of a character in [DEFAULT_ALPHABET], if any. *)
Definition alphabetValue (c : ascii) : option Z :=
  let n := Z.of_nat (nat_of_ascii c) in
  if andb (48 <=? n) (n <=? 57) then Some (n - 48)
  else if andb (97 <=? n) (n <=? 122) then Some (n - 97 + 10)
  else None.

(* ===================================================================== *)
(** ** SHA-256 (FIPS 180-4), as [crypto.createHash('sha256')] *)
(* ===================================================================== *)

Module SHA256.

Definition wrap (z : Z) : Z := z mod 2 ^ 32.

Definition rotr (n x : Z) : Z :=
  Z.lor (Z.shiftr x n) (wrap (Z.shiftl x (32 - n))).

Definition Ch (x y z : Z) : Z :=
  Z.lxor (Z.land x y) (Z.land (Z.lxor x (2 ^ 32 - 1)) z).

Definition Maj (x y z : Z) : Z :=
  Z.lxor (Z.lxor (Z.land x y) (Z.land x z)) (Z.land y z).

Definition bsig0 (x : Z) : Z := Z.lxor (Z.lxor (rotr 2 x) (rotr 13 x)) (rotr 22 x).
Definition bsig1 (x : Z) : Z := Z.lxor (Z.lxor (rotr 6 x) (rotr 11 x)) (rotr 25 x).
Definition ssig0 (x : Z) : Z := Z.lxor (Z.lxor (rotr 7 x) (rotr 18 x)) (Z.shiftr x 3).
Definition ssig1 (x : Z) : Z := Z.lxor (Z.lxor (rotr 17 x) (rotr 19 x)) (Z.shiftr x 10).

(** The round constants are the first 32 fractional bits of the cube
    roots of the first 64 primes, the initial state those of the square
    roots of the first 8. *)
Definition primes64 : list Z :=
  [2; 3; 5; 7; 11; 13; 17; 19; 23; 29; 31; 37; 41; 43; 47; 53;
   59; 61; 67; 71; 73; 79; 83; 89; 97; 101; 103; 107; 109; 113; 127; 131;
   137; 139; 149; 151; 157; 163; 167; 173; 179; 181; 191; 193; 197; 199;
   211; 223; 227; 229; 233; 239; 241; 251; 257; 263; 269; 271; 277; 281;
   283; 293; 307; 311].

Fixpoint icbrt_bits (k : nat) (r n : Z) : Z :=
  match k with
  | O => r
  | S k' =>
      let c := r + 2 ^ Z.of_nat k' in
      icbrt_bits k' (if c * c * c <=? n then c else r) n
  end.

Definition frac_cbrt32 (p : Z) : Z := wrap (icbrt_bits 40 0 (p * 2 ^ 96)).
Definition frac_sqrt32 (p : Z) : Z := wrap (Z.sqrt (p * 2 ^ 64)).

Definition K : list Z := Eval vm_compute in map frac_cbrt32 primes64.

Record state := State { h0 : Z; h1 : Z; h2 : Z; h3 : Z; h4 : Z; h5 : Z; h6 : Z; h7 : Z }.

Definition H_init : state :=
  Eval vm_compute in
    match map frac_sqrt32 (firstn 8 primes64) with
    | [a; b; c; d; e; f; g; h] => State a b c d e f g h
    | _ => State 0 0 0 0 0 0 0 0
    end.

(** Padding: a single 1 bit, zeros up to 56 mod 64 bytes, then the bit
    length of the message on eight bytes. *)
Definition be_bytes (width : nat) (v : Z) : Buffer :=
  map (fun i => byte_of_Z (Z.shiftr v (8 * Z.of_nat i))) (rev (seq 0 width)).

Definition pad (msg : Buffer) : Buffer :=
  let len := Z.of_nat (List.length msg) in
  let zeros := Z.to_nat ((55 - len) mod 64) in
  msg ++ x80 :: repeat x00 zeros ++ be_bytes 8 (8 * len).

(** The sixteen words of a 64-byte block. *)
Fixpoint words (n : nat) (bs : Buffer) : list Z :=
  match n with
  | O => []
  | S n' => be_uint (firstn 4 bs) :: words n' (skipn 4 bs)
  end.

(** Message schedule, kept newest first: [ws] holds W(t-1), W(t-2), ... *)
Fixpoint schedule (n : nat) (ws : list Z) : list Z :=
  match n with
  | O => ws
  | S n' =>
      let w := wrap (ssig1 (nth 1 ws 0) + nth 6 ws 0 + ssig0 (nth 14 ws 0) + nth 15 ws 0) in
      schedule n' (w :: ws)
  end.

Definition round (s : state) (kw : Z * Z) : state :=
  let '(k, w) := kw in
  let t1 := wrap (h7 s + bsig1 (h4 s) + Ch (h4 s) (h5 s) (h6 s) + k + w) in
  let t2 := wrap (bsig0 (h0 s) + Maj (h0 s) (h1 s) (h2 s)) in
  State (wrap (t1 + t2)) (h0 s) (h1 s) (h2 s) (wrap (h3 s + t1)) (h4 s) (h5 s) (h6 s).

Definition compress (s : state) (block : Buffer) : state :=
  let W := rev (schedule 48 (rev (words 16 block))) in
  let r := fold_left round (combine K W) s in
  State (wrap (h0 s + h0 r)) (wrap (h1 s + h1 r)) (wrap (h2 s + h2 r))
        (wrap (h3 s + h3 r)) (wrap (h4 s + h4 r)) (wrap (h5 s + h5 r))
        (wrap (h6 s + h6 r)) (wrap (h7 s + h7 r)).

Fixpoint blocks (n : nat) (s : state) (bs : Buffer) : state :=
  match n with
  | O => s
  | S n' => blocks n' (compress s (firstn 64 bs)) (skipn 64 bs)
  end.

Definition word_bytes (v : Z) : Buffer :=
  [byte_of_Z (Z.shiftr v 24); byte_of_Z (Z.shiftr v 16);
   byte_of_Z (Z.shiftr v 8); byte_of_Z v].

Definition state_bytes (s : state) : Buffer :=
  word_bytes (h0 s) ++ word_bytes (h1 s) ++ word_bytes (h2 s) ++ word_bytes (h3 s) ++
  word_bytes (h4 s) ++ word_bytes (h5 s) ++ word_bytes (h6 s) ++ word_bytes (h7 s).

(** [crypto.createHash('sha256').update(msg).digest()]. *)
Definition digest (msg : Buffer) : Buffer :=
  let p := pad msg in
  state_bytes (blocks (Nat.div (List.length p) 64) H_init p).

End SHA256.

Definition sha256 (msg : Buffer) : Buffer := SHA256.digest msg.

(* ===================================================================== *)
(** ** Exceptions *)
(* ===================================================================== *)

Inductive exn : Type :=
| Error (message : string)
| TypeError (message : string).

Definition result (A : Type) : Type := (exn + A)%type.

Definition bind_result {A B} (r : result A) (k : A -> result B) : result B :=
  match r with
  | inl e => inl e
  | inr a => k a
  end.

(* ===================================================================== *)
(** ** The [big-integer] package *)
(* ===================================================================== *)

Module bigInt.

(** [parseBaseFromArray(digits, base, isNegative)]: the digits are read
    from the last one, [pow] running through the powers of the base. *)
Definition parseBaseFromArray (digits : list Z) (base : Z) (isNegative : bool) : Z :=
  let '(val, _) :=
    fold_left (fun '(val, pow) d => (val + d * pow, pow * base)) (rev digits) (0, 1) in
  if isNegative then - val else val.

(** First loop of [parseBase]: a character of the alphabet whose value is
    not below the base is refused; ["-"] is passed over. *)
Fixpoint check_digits (base : Z) (text : list ascii) : result unit :=
  match text with
  | [] => inr tt
  | c :: rest =>
      if Ascii.eqb c "-" then check_digits base rest
      else match alphabetValue c with
           | Some v =>
               if base <=? v
               then inl (Error (String c " is not a valid digit in base 16."))
               else check_digits base rest
           | None => check_digits base rest
           end
  end.

(** [parseValue(text)] on the text of an escape: the package's reader of
    decimal numbers, which returns an integer or throws.  It is left as a
    parameter. *)
Class Reader := parseValue : string -> result Z.

(** A reader that refuses every text, for text that holds no escape. *)
Definition no_escape : Reader :=
  fun text => inl (Error ("Invalid integer: " ++ text)%string).

(** Second loop of [parseBase]: a character of the alphabet is a digit;
    ["<"] opens an escape that runs to the next [">"] or to the end of
    the text, and whose content is one digit, read by [parseValue]; any
    other character is refused.  [escape] holds the content gathered so
    far, last character first, while an escape is open. *)
Fixpoint read_digits {pv : Reader} (text : list ascii) (escape : option (list ascii))
  : result (list Z) :=
  match text with
  | [] =>
      match escape with
      | None => inr []
      | Some content =>
          bind_result (parseValue (string_of_list_ascii (rev content))) (fun d => inr [d])
      end
  | c :: rest =>
      match escape with
      | Some content =>
          if Ascii.eqb c ">"
          then bind_result (parseValue (string_of_list_ascii (rev content))) (fun d =>
               bind_result (read_digits rest None) (fun ds => inr (d :: ds)))
          else read_digits rest (Some (c :: content))
      | None =>
          match alphabetValue c with
          | Some v => bind_result (read_digits rest None) (fun ds => inr (v :: ds))
          | None =>
              if Ascii.eqb c "<" then read_digits rest (Some [])
              else inl (Error (String c " is not a valid character"))
          end
      end
  end.

(** [parseBase(text, 16)]. *)
Definition parseBase16 {pv : Reader} (text : string) : result Z :=
  let text := map toLowerCase_char (list_ascii_of_string text) in
  bind_result (check_digits 16 text) (fun _ =>
  let isNegative := match text with c :: _ => Ascii.eqb c "-" | [] => false end in
  bind_result (read_digits (if isNegative then tl text else text) None) (fun digits =>
  inr (parseBaseFromArray digits 16 isNegative))).

(** [bigInt(v, 16)]: [Integer(v, radix)] returns zero for a [v] that is
    [undefined], and [parseBase(v, 16)] otherwise. *)
Definition Integer16 {pv : Reader} (v : option string) : result Z :=
  match v with
  | None => inr 0
  | Some text => parseBase16 text
  end.

(** [toBase(n, base)] for a base of at least two.  [out] is kept in the
    order the final [reverse()] gives it.  The loop divides [left] by the
    base until it is below it, so a budget of one step per bit of [n]
    is never used up. *)
Record BaseArray := { value : list Z; isNegative : bool }.

Fixpoint toBase_loop (fuel : nat) (left base : Z) (out : list Z) : list Z :=
  match fuel with
  | O => left :: out
  | S fuel' =>
      if base <=? left
      then toBase_loop fuel' (left / base) base (left mod base :: out)
      else left :: out
  end.

Definition toBase (n base : Z) : BaseArray :=
  let neg := n <? 0 in
  let n := Z.abs n in
  {| value := toBase_loop (S (Z.to_nat (Z.log2 n))) n base [];
     isNegative := neg |}.

(** [n.toArray(radix)]. *)
Definition toArray (n radix : Z) : BaseArray := toBase n radix.

(** [n.toString(radix)] for a radix other than ten. *)
Definition toString (n radix : Z) : string :=
  let arr := toBase n radix in
  ((if isNegative arr then "-" else "") ++
   string_of_list_ascii (map stringify (value arr)))%string.

(** [a.subtract(b)], [a.add(b)], [a.multiply(b)]. *)
Definition subtract (a b : Z) : Z := a - b.
Definition add (a b : Z) : Z := a + b.
Definition multiply (a b : Z) : Z := a * b.

(** [a.mod(b)]: the remainder takes the sign of the dividend. *)
Definition mod_ (a b : Z) : Z := Z.rem a b.

(** The loop of [modPow], one turn per bit of the exponent:
    [while (exp.isPositive()) { if (base.isZero()) return 0;
       if (exp.isOdd()) r = r.multiply(base).mod(mod);
       exp = exp.divide(2); base = base.square().mod(mod); }]. *)
Fixpoint modPow_loop (r base : Z) (exp : positive) (m : Z) : Z :=
  if base =? 0 then 0
  else match exp with
       | xH => mod_ (multiply r base) m
       | xO exp' => modPow_loop r (mod_ (multiply base base) m) exp' m
       | xI exp' =>
           modPow_loop (mod_ (multiply r base) m) (mod_ (multiply base base) m) exp' m
       end.

(** [b.modPow(exp, m)] for an exponent that is not negative and a modulus
    that is not zero, the only way this program calls it: its exponents
    are read from unsigned hexadecimal text and its modulus is [N]. *)
Definition modPow (b : Z) (exp : N) (m : Z) : Z :=
  match exp with
  | N0 => 1
  | Npos p => modPow_loop 1 (mod_ b m) p m
  end.

End bigInt.

(* ===================================================================== *)
(** ** Buffers of the runtime *)
(* ===================================================================== *)

(** Value of a character in the base64 alphabets (standard and URL). *)
Definition base64_value (c : ascii) : option Z :=
  let n := Z.of_nat (nat_of_ascii c) in
  if andb (65 <=? n) (n <=? 90) then Some (n - 65)
  else if andb (97 <=? n) (n <=? 122) then Some (n - 71)
  else if andb (48 <=? n) (n <=? 57) then Some (n + 4)
  else if orb (n =? 43) (n =? 45) then Some 62
  else if orb (n =? 47) (n =? 95) then Some 63
  else None.

(** The sextets of a base64 text: reading stops at ["="], characters
    outside the alphabets are passed over. *)
Fixpoint base64_sextets (text : list ascii) : list Z :=
  match text with
  | [] => []
  | c :: rest =>
      if Ascii.eqb c "=" then []
      else match base64_value c with
           | Some v => v :: base64_sextets rest
           | None => base64_sextets rest
           end
  end.

Fixpoint base64_groups (vs : list Z) : list Z :=
  match vs with
  | a :: b :: c :: d :: rest =>
      (a * 4 + b / 16) :: ((b mod 16) * 16 + c / 4) :: ((c mod 4) * 64 + d)
        :: base64_groups rest
  | [a; b; c] => [a * 4 + b / 16; (b mod 16) * 16 + c / 4]
  | [a; b] => [a * 4 + b / 16]
  | _ => []
  end.

(** [Buffer.from(s, 'base64')]; a receiver that is not a string
    ([undefined]) is refused with a [TypeError]. *)
Definition Buffer_from_base64 (s : option string) : result Buffer :=
  match s with
  | None => inl (TypeError "The first argument must be of type string")
  | Some s => inr (map byte_of_Z (base64_groups (base64_sextets (list_ascii_of_string s))))
  end.

(** An item of the list handed to [Buffer.concat]: a buffer, or a plain
    array of numbers such as [toArray(256).value]. *)
Inductive concat_item : Type :=
| item_Buffer (b : Buffer)
| item_Array (a : list Z).

(** The [TypeError] of [Buffer.concat] for the item at index [i] (Node's
    message, its quotation marks left out). *)
Definition concat_error (i : nat) : exn :=
  TypeError ("The list[" ++ NilEmpty.string_of_uint (Nat.to_uint i) ++
             "] argument must be an instance of Buffer or Uint8Array. " ++
             "Received an instance of Array")%string.

(** The copying loop of [Buffer.concat(list)]: the items are taken in
    order, and the first one that is not a buffer ends the call with a
    [TypeError]. *)
Fixpoint Buffer_concat_from (i : nat) (list : list concat_item) : result Buffer :=
  match list with
  | [] => inr []
  | item_Buffer b :: rest =>
      bind_result (Buffer_concat_from (S i) rest) (fun bs => inr (b ++ bs))
  | item_Array _ :: _ => inl (concat_error i)
  end.

Definition Buffer_concat (list : list concat_item) : result Buffer :=
  Buffer_concat_from 0 list.

(* ===================================================================== *)
(** ** JavaScript values at the interface *)
(* ===================================================================== *)

Inductive jsval : Type :=
| JUndefined
| JNum (n : Z)
| JStr (s : string).

(** Truthiness, as tested by [!v]. *)
Definition truthy (v : jsval) : bool :=
  match v with
  | JUndefined => false
  | JNum n => negb (n =? 0)
  | JStr s => negb (String.eqb s "")
  end.

Definition truthy_string (v : option string) : bool :=
  match v with
  | None => false
  | Some s => negb (String.eqb s "")
  end.

(** An object answered by the Telegram API: the fields this program reads.
    A field that is absent is [JUndefined] or [None]. *)
Record ApiObject := {
  srp_id : jsval;
  srp_B : option string;
  current_salt : option string;
  url : jsval
}.

(** The object returned by [createPasswordCheckPayload]; [p_] is its
    ["_"] key. *)
Record Payload := {
  p_ : string;
  p_srp_id : jsval;
  p_A : string;
  p_M1 : string
}.

(** A call of [bot.telegram.callApi]. *)
Inductive api_call : Type :=
| account_getPassword
| payments_getStarsRevenueWithdrawalUrl (stars : jsval) (password : Payload).

(* ===================================================================== *)
(** ** The world: entropy and the remote API *)
(* ===================================================================== *)

(** [entropy] is the tape [crypto.randomBytes] reads from, [cursor] its
    position; [remote] answers an API call with an object, with
    [undefined] ([None]) or by throwing; [calls] records the calls made. *)
Record world := {
  entropy : nat -> byte;
  cursor : nat;
  remote : api_call -> result (option ApiObject);
  calls : list api_call
}.

(** Computations that read and change the world and may throw. *)
Definition M (A : Type) : Type := world -> result A * world.

Definition ret {A} (a : A) : M A := fun w => (inr a, w).
Definition throw {A} (e : exn) : M A := fun w => (inl e, w).
Definition bind {A B} (c : M A) (k : A -> M B) : M B :=
  fun w => match c w with
           | (inl e, w') => (inl e, w')
           | (inr a, w') => k a w'
           end.
Definition lift {A} (r : result A) : M A := fun w => (r, w).

Notation "x <- c ;; k" := (bind c (fun x => k))
  (at level 61, c at next level, right associativity).

(** [crypto.randomBytes(n)]. *)
Definition crypto_randomBytes (n : nat) : M Buffer :=
  fun w =>
    (inr (map (entropy w) (seq (cursor w) n)),
     {| entropy := entropy w; cursor := (cursor w + n)%nat;
        remote := remote w; calls := calls w |}).

(** [await bot.telegram.callApi(...)]. *)
Definition callApi (c : api_call) : M (option ApiObject) :=
  fun w =>
    (remote w c,
     {| entropy := entropy w; cursor := cursor w;
        remote := remote w; calls := calls w ++ [c] |}).

(* ===================================================================== *)
(** ** The group constants of [createPasswordCheckPayload] *)
(* ===================================================================== *)

Module PrimeGroup.

(** [const g = bigInt(2)]. *)
Definition g : Z := 2.

(** [const N = bigInt('AC6B...' + 'FCE1...', 16)]. *)
Definition N_text : string :=
  ("AC6BDB41324A9A9BF166DE5E1389582FAF72B665198FFB3E2C6D9A8C12AD3D9A86917F1FE55E7182967C2E4D" ++
   "FCE10D86AA6D5FDEDD532F3A942D5EEC0A3C9CEFAF9643DB81E2AFCBDC7D465F20AB4FA91852C1696F769A9A2C")%string.

Definition N : Z :=
  Eval vm_compute in
    match bigInt.parseBase16 (pv := bigInt.no_escape) N_text with
    | inr n => n
    | inl _ => 0
    end.

End PrimeGroup.

(** Number of bytes of the shortest big-endian writing of [n]. *)
Definition byte_length (n : Z) : Z :=
  if Z.abs n =? 0 then 1 else Z.log2 (Z.abs n) / 8 + 1.

(* ===================================================================== *)
(** ** [createPasswordCheckPayload] *)
(* ===================================================================== *)

(** The body is straight-line code; it is taken in four parts, each
    with the [const] bindings it makes, by their names. *)

(** Lines 121 to 125: the salt, the password bytes, their digest and the
    secret [x]. *)
Record Secret := {
  v_salt : Buffer;
  v_passwordBytes : Buffer;
  v_passwordHash : Buffer;
  v_x : Z
}.

Definition lines_121_125 {pv : bigInt.Reader}
    (password : string) (passwordParams : ApiObject) : result Secret :=
  bind_result (Buffer_from_base64 (current_salt passwordParams)) (fun salt =>
  let passwordBytes := Buffer_from_utf8 password in
  bind_result (Buffer_concat [item_Buffer salt; item_Buffer passwordBytes]) (fun message =>
  let passwordHash := sha256 message in
  bind_result (bigInt.parseBase16 (Buffer_toString_hex passwordHash)) (fun x =>
  inr {| v_salt := salt; v_passwordBytes := passwordBytes;
         v_passwordHash := passwordHash; v_x := x |}))).

(** Lines 126 and 127: the exponent [a] and the public value [A]. *)
Record Ephemeral := {
  v_a : Z;
  v_A : Z
}.

Definition lines_126_127 {pv : bigInt.Reader} : M Ephemeral :=
  random <- crypto_randomBytes 256 ;;
  a <- lift (bigInt.parseBase16 (Buffer_toString_hex random)) ;;
  let A := bigInt.modPow PrimeGroup.g (Z.to_N a) PrimeGroup.N in
  ret {| v_a := a; v_A := A |}.

(** Lines 121 to 129: the bindings above and the challenge [B]. *)
Record Bindings := {
  secret : Secret;
  ephemeral : Ephemeral;
  v_B : Z
}.

Definition lines_121_129 {pv : bigInt.Reader}
    (password : string) (passwordParams : ApiObject) : M Bindings :=
  s <- lift (lines_121_125 password passwordParams) ;;
  e <- lines_126_127 ;;
  B <- lift (bigInt.Integer16 (srp_B passwordParams)) ;;
  ret {| secret := s; ephemeral := e; v_B := B |}.

(** The receiver of the outer [modPow] on line 133:
    [B.subtract(g.modPow(x, N))]. *)
Definition S_base (B x : Z) : Z :=
  bigInt.subtract B (bigInt.modPow PrimeGroup.g (Z.to_N x) PrimeGroup.N).

(** Line 133: [B.subtract(g.modPow(x, N)).modPow(a.add(u.multiply(x)), N)]. *)
Definition line_133 (x a B u : Z) : Z :=
  bigInt.modPow (S_base B x) (Z.to_N (bigInt.add a (bigInt.multiply u x))) PrimeGroup.N.

(** Lines 130 to 134: the two hashes, the scrambling parameter [u] and
    the shared secret [S].  [Buffer.concat] is handed the arrays
    [toArray(256).value] as they are. *)
Record Hashes := {
  v_uHash : Buffer;
  v_u : Z;
  v_S : Z;
  v_M1Hash : Buffer
}.

Definition lines_130_134 {pv : bigInt.Reader} (b : Bindings) : result Hashes :=
  let x := v_x (secret b) in
  let a := v_a (ephemeral b) in
  let A := v_A (ephemeral b) in
  let B := v_B b in
  bind_result (Buffer_concat [item_Array (bigInt.value (bigInt.toArray A 256));
                              item_Array (bigInt.value (bigInt.toArray B 256))]) (fun message =>
  let uHash := sha256 message in
  bind_result (bigInt.parseBase16 (Buffer_toString_hex uHash)) (fun u =>
  let S := line_133 x a B u in
  bind_result (Buffer_concat [item_Array (bigInt.value (bigInt.toArray A 256));
                              item_Array (bigInt.value (bigInt.toArray B 256));
                              item_Array (bigInt.value (bigInt.toArray S 256))]) (fun message =>
  let M1Hash := sha256 message in
  inr {| v_uHash := uHash; v_u := u; v_S := S; v_M1Hash := M1Hash |}))).

(** The whole function: the bindings, the hashes, and the object of
    lines 136 to 141. *)
Definition createPasswordCheckPayload {pv : bigInt.Reader}
    (password : string) (passwordParams : ApiObject) : M Payload :=
  b <- lines_121_129 password passwordParams ;;
  p <- lift (lines_130_134 b) ;;
  ret {| p_ := "inputCheckPasswordSRP";
         p_srp_id := srp_id passwordParams;
         p_A := bigInt.toString (v_A (ephemeral b)) 16;
         p_M1 := Buffer_toString_hex (v_M1Hash p) |}.

(* ===================================================================== *)
(** ** [getPasswordParams] and [getStarsRevenueWithdrawalUrl] *)
(* ===================================================================== *)

(** The [catch] blocks of both functions log the error and throw it
    again; logging is not part of the world, so they leave no trace. *)
Definition getPasswordParams : M ApiObject :=
  passwordDetails <- callApi account_getPassword ;;
  match passwordDetails with
  | None =>
      throw (Error
        "No response from account.getPassword API. Check bot permissions or API availability.")
  | Some passwordDetails =>
      if orb (negb (truthy (srp_id passwordDetails)))
           (orb (negb (truthy_string (srp_B passwordDetails)))
                (negb (truthy_string (current_salt passwordDetails))))
      then throw (Error "Missing required fields in password details response")
      else ret passwordDetails
  end.

Definition getStarsRevenueWithdrawalUrl {pv : bigInt.Reader}
    (starsAmount : jsval) (password : string) : M jsval :=
  passwordParams <- getPasswordParams ;;
  passwordPayload <- createPasswordCheckPayload password passwordParams ;;
  response <- callApi (payments_getStarsRevenueWithdrawalUrl starsAmount passwordPayload) ;;
  match response with
  | None => throw (TypeError "Cannot read properties of undefined (reading 'url')")
  | Some response => ret (url response)
  end.

(* ===================================================================== *)
(** ** Sample worlds and runs *)
(* ===================================================================== *)

(** A remote that answers [account.getPassword] with [d] and the
    withdrawal call with a fixed address. *)
Definition remote_answering (d : option ApiObject) (c : api_call)
  : result (option ApiObject) :=
  match c with
  | account_getPassword => inr d
  | payments_getStarsRevenueWithdrawalUrl _ _ =>
      inr (Some {| srp_id := JUndefined; srp_B := None; current_salt := None;
                   url := JStr "https://fragment.com/stars/withdraw" |})
  end.

(** A world whose entropy tape is zero except for a last byte [b] of the
    first 256. *)
Definition world_with (b : byte) (d : option ApiObject) : world :=
  {| entropy := fun i => if Nat.eqb i 255 then b else x00;
     cursor := 0;
     remote := remote_answering d;
     calls := [] |}.

(** Challenge parameters with the three fields present. *)
Definition params_of (id : jsval) (B salt : string) : ApiObject :=
  {| srp_id := id; srp_B := Some B; current_salt := Some salt; url := JUndefined |}.

(* ===================================================================== *)
(** ** Handlers with a world of their own *)
(* ===================================================================== *)

(** Computations over a world [W] that may throw, and the [try]/[catch]
    of the handlers: the handler runs in the world the body left. *)
Definition run_in (W A : Type) : Type := W -> result A * W.

Definition ret_in {W A} (a : A) : run_in W A := fun w => (inr a, w).
Definition throw_in {W A} (e : exn) : run_in W A := fun w => (inl e, w).
Definition bind_in {W A B} (c : run_in W A) (k : A -> run_in W B) : run_in W B :=
  fun w => match c w with
           | (inl e, w') => (inl e, w')
           | (inr a, w') => k a w'
           end.
Definition try_catch {W A} (body : run_in W A) (handler : exn -> run_in W A) : run_in W A :=
  fun w => match body w with
           | (inl e, w') => handler e w'
           | (inr a, w') => (inr a, w')
           end.

Notation "x <~ c ;; k" := (bind_in c (fun x => k))
  (at level 61, c at next level, right associativity).

(* ===================================================================== *)
(** ** [bot.on('pre_checkout_query', ...)] *)
(* ===================================================================== *)

(** [ctx.update.pre_checkout_query]: the fields the handler reads. *)
Record PreCheckoutQuery := {
  q_id : string;
  q_from_username : option string;
  q_invoice_payload : string
}.

(** A call of [ctx.answerPreCheckoutQuery(ok, errorMessage)]. *)
Inductive ctx_call : Type :=
| answerPreCheckoutQuery (ok : bool) (errorMessage : option string).

(** The chat side of a handler: the answers sent so far, and how
    Telegram takes a call given those already sent (it resolves or
    throws). *)
Record chat := {
  answers : list ctx_call;
  telegram : list ctx_call -> ctx_call -> result unit
}.

(** [await ctx.answerPreCheckoutQuery(...)]. *)
Definition ctx_answerPreCheckoutQuery (ok : bool) (errorMessage : option string)
  : run_in chat unit :=
  fun c =>
    let call := answerPreCheckoutQuery ok errorMessage in
    (telegram c (answers c) call,
     {| answers := answers c ++ [call]; telegram := telegram c |}).

(** The handler of [pre_checkout_query]. *)
Definition on_pre_checkout_query (query : PreCheckoutQuery) : run_in chat unit :=
  try_catch
    (if negb (String.eqb (q_invoice_payload query) "{}")
     then ctx_answerPreCheckoutQuery false (Some "Invalid payment payload."%string)
     else
       _ <~ ctx_answerPreCheckoutQuery true None ;;
       ret_in tt)
    (fun error =>
       ctx_answerPreCheckoutQuery false (Some "Failed to process payment."%string)).

(* ===================================================================== *)
(** ** [handlePayWithStars] of [App.tsx] *)
(* ===================================================================== *)

(** The request handed to [fetch]; [f_body] stands for the JSON text of
    [{ skinName, starsPrice }]. *)
Record FetchRequest := {
  f_url : string;
  f_method : string;
  f_headers : list (string * string);
  f_body : string * Z
}.

(** What the handler reads of a response: [ok], [statusText], and the
    outcome of [await response.json()], which rejects, or gives a value
    without properties ([None], for [null]), or a value whose
    [invoiceLink] is read. *)
Record Response := {
  ok : bool;
  statusText : string;
  json : result (option jsval)
}.

(** The browser side: the server behind [fetch], the Telegram WebApp
    behind [WebApp.openInvoice], and what was asked of each. *)
Record browser := {
  server : FetchRequest -> result Response;
  webapp : jsval -> result unit;
  requests : list FetchRequest;
  invoices : list jsval
}.

(** [await fetch(url, init)]. *)
Definition fetch (r : FetchRequest) : run_in browser Response :=
  fun b =>
    (server b r,
     {| server := server b; webapp := webapp b;
        requests := requests b ++ [r]; invoices := invoices b |}).

(** [WebApp.openInvoice(invoiceLink, callback)]; the callback only logs. *)
Definition WebApp_openInvoice (invoiceLink : jsval) : run_in browser unit :=
  fun b =>
    (webapp b invoiceLink,
     {| server := server b; webapp := webapp b;
        requests := requests b; invoices := invoices b ++ [invoiceLink] |}).

Definition create_invoice_request (skinName : string) (starsPrice : Z) : FetchRequest :=
  {| f_url := "http://localhost:3000/create-invoice";
     f_method := "POST";
     f_headers := [("Content-Type", "application/json")]%string;
     f_body := (skinName, starsPrice) |}.

Definition handlePayWithStars (skinName : string) (starsPrice : Z) : run_in browser unit :=
  try_catch
    (response <~ fetch (create_invoice_request skinName starsPrice) ;;
     if negb (ok response)
     then throw_in (Error ("Server error: " ++ statusText response))
     else
       data <~ (fun b => (json response, b)) ;;
       match data with
       | None => throw_in (TypeError "Cannot read properties of null (reading 'invoiceLink')")
       | Some invoiceLink => WebApp_openInvoice invoiceLink
       end)
    (fun error => ret_in tt).

(* ===================================================================== *)
(** ** Definitions used in the statements *)
(* ===================================================================== *)

(** Value of a digit sequence, most significant digit first. *)
Definition horner (base : Z) (ds : list Z) : Z :=
  fold_left (fun acc d => acc * base + d) ds 0.

(** The two hexadecimal digits of each byte. *)
Definition nibbles (bs : Buffer) : list Z :=
  flat_map (fun b => [Z_of_byte b / 16; Z_of_byte b mod 16]) bs.

(** Every digit lies in [0, base). *)
Definition digits_below (base : Z) (ds : list Z) : Prop :=
  Forall (fun d => 0 <= d < base) ds.

(** A character is a lowercase hexadecimal digit. *)
Definition is_lower_hex (c : ascii) : bool :=
  let n := nat_of_ascii c in
  (orb (andb (48 <=? n) (n <=? 57)) (andb (97 <=? n) (n <=? 102)))%nat.

(** First digit of a digit sequence is positive. *)
Definition leading_positive (ds : list Z) : Prop :=
  match ds with
  | d :: _ => 0 < d
  | [] => False
  end.

(** [N] is four times this odd number. *)
Definition N_odd_part : Z := Eval vm_compute in PrimeGroup.N / 4.

(** The bytes the next [crypto.randomBytes(256)] returns in a world. *)
Definition next_random (w : world) : Buffer := map (entropy w) (seq (cursor w) 256).

(** The world once those bytes are drawn. *)
Definition after_random (w : world) : world :=
  {| entropy := entropy w; cursor := (cursor w + 256)%nat;
     remote := remote w; calls := calls w |}.

(** The bindings of lines 121 to 125, from the decoded salt and the
    password. *)
Definition secret_of (salt : Buffer) (password : string) : Secret :=
  let passwordBytes := Buffer_from_utf8 password in
  let passwordHash := sha256 (salt ++ passwordBytes) in
  {| v_salt := salt; v_passwordBytes := passwordBytes;
     v_passwordHash := passwordHash; v_x := be_uint passwordHash |}.

(** The bindings of lines 126 and 127 in a world. *)
Definition ephemeral_of (w : world) : Ephemeral :=
  let a := be_uint (next_random w) in
  {| v_a := a; v_A := bigInt.modPow PrimeGroup.g (Z.to_N a) PrimeGroup.N |}.

(** The error of [Buffer.from(undefined, 'base64')]. *)
Definition salt_error : exn := TypeError "The first argument must be of type string".

(** A world whose next 256 random bytes spell the exponent 1. *)
Definition sample_world : world := world_with x01 None.

(** The world once the call [c] is made. *)
Definition logged (w : world) (c : api_call) : world :=
  {| entropy := entropy w; cursor := cursor w; remote := remote w; calls := calls w ++ [c] |}.

(** The test [!d.srp_id || !d.srp_B || !d.current_salt]. *)
Definition missing_fields (d : ApiObject) : bool :=
  orb (negb (truthy (srp_id d)))
      (orb (negb (truthy_string (srp_B d))) (negb (truthy_string (current_salt d)))).

(** A world that differs from [sample_world] in its tape, its cursor and
    its remote, and yields the same 256 random bytes. *)
Definition shifted_world : world :=
  {| entropy := fun i => if Nat.eqb i 265 then x01 else if Nat.ltb i 10 then xff else x00;
     cursor := 10;
     remote := fun _ => inl (Error "offline");
     calls := [account_getPassword] |}.

(** The errors of [getPasswordParams]. *)
Definition no_response_error : exn :=
  Error "No response from account.getPassword API. Check bot permissions or API availability.".

Definition missing_fields_error : exn :=
  Error "Missing required fields in password details response".

(* ===================================================================== *)
(** * Properties *)
(* ===================================================================== *)

(** ** Test vectors of the runtime model *)

Example sha256_abc :
  Buffer_toString_hex (sha256 (Buffer_from_utf8 "abc")) =
  "ba7816bf8f01cfea414140de5dae2223b00361a396177a9cb410ff61f20015ad"%string.
Proof. vm_compute. reflexivity. Qed.

Example sha256_empty :
  Buffer_toString_hex (sha256 []) =
  "e3b0c44298fc1c149afbf4c8996fb92427ae41e4649b934ca495991b7852b855"%string.
Proof. vm_compute. reflexivity. Qed.

Example sha256_two_blocks :
  Buffer_toString_hex
    (sha256 (Buffer_from_utf8 "abcdbcdecdefdefgefghfghighijhijkijkljklmklmnlmnomnopnopq")) =
  "248d6a61d20638b8e5c026930c3e6039a33ce45964ff2167f6ecedd419db06c1"%string.
Proof. vm_compute. reflexivity. Qed.

Example parse_ff {pv : bigInt.Reader} : bigInt.parseBase16 "fF" = inr 255.
Proof. reflexivity. Qed.
Example parse_neg {pv : bigInt.Reader} : bigInt.parseBase16 "-1a" = inr (-26).
Proof. reflexivity. Qed.
Example parse_bad {pv : bigInt.Reader} : bigInt.parseBase16 "xyz" =
  inl (Error "x is not a valid digit in base 16.").
Proof. reflexivity. Qed.
Example parse_foreign {pv : bigInt.Reader} : bigInt.parseBase16 "1 2" =
  inl (Error "  is not a valid character").
Proof. reflexivity. Qed.
Example parse_undefined {pv : bigInt.Reader} : bigInt.Integer16 None = inr 0.
Proof. reflexivity. Qed.
Example parse_escape :
  bigInt.parseBase16 (pv := bigInt.no_escape) "1<10>2" = inl (Error "Invalid integer: 10").
Proof. reflexivity. Qed.
Example parse_escape_digit :
  bigInt.parseBase16 (pv := fun _ => inr 10) "1<10>2" = inr 418.
Proof. reflexivity. Qed.
Example parse_escape_open :
  bigInt.parseBase16 (pv := bigInt.no_escape) "<1" = inl (Error "Invalid integer: 1").
Proof. reflexivity. Qed.
Example concat_buffers :
  Buffer_concat [item_Buffer [x01; x02]; item_Buffer []; item_Buffer [x03]] =
  inr [x01; x02; x03].
Proof. reflexivity. Qed.
Example concat_arrays :
  Buffer_concat [item_Buffer [x01]; item_Array [2]; item_Array [1]] =
  inl (TypeError ("The list[1] argument must be an instance of Buffer or Uint8Array. " ++
                  "Received an instance of Array")).
Proof. reflexivity. Qed.
Example toArray_65537 : bigInt.value (bigInt.toArray 65537 256) = [1; 0; 1].
Proof. reflexivity. Qed.
Example toArray_zero : bigInt.value (bigInt.toArray 0 256) = [0].
Proof. reflexivity. Qed.
Example toString_neg : bigInt.toString (-255) 16 = "-ff"%string.
Proof. reflexivity. Qed.
Example modPow_toy : bigInt.modPow 5 6 23 = 8.
Proof. reflexivity. Qed.
Example modPow_negative_base : bigInt.modPow (-7) 3 17 = -3.
Proof. reflexivity. Qed.

Example base64_salt : Buffer_from_base64 (Some "c2FsdA=="%string) =
  inr (Buffer_from_utf8 "salt").
Proof. reflexivity. Qed.
Example base64_short : Buffer_from_base64 (Some "cw"%string) = inr (Buffer_from_utf8 "s").
Proof. reflexivity. Qed.

(** ** Positional values in a base *)

Section Positional.

Variable base : Z.

Lemma fold_horner_acc (ds : list Z) (acc : Z) :
  fold_left (fun acc d => acc * base + d) ds acc =
  acc * base ^ Z.of_nat (List.length ds) + horner base ds.
Proof.
  unfold horner. revert acc. induction ds as [|d ds IH]; intros acc.
  - simpl. lia.
  - cbn [fold_left List.length]. rewrite IH, (IH (0 * base + d)).
    rewrite Nat2Z.inj_succ, Z.pow_succ_r by lia. ring.
Qed.

Lemma horner_cons (d : Z) (ds : list Z) :
  horner base (d :: ds) = d * base ^ Z.of_nat (List.length ds) + horner base ds.
Proof.
  unfold horner at 1. cbn [fold_left]. rewrite fold_horner_acc. ring.
Qed.

Lemma horner_app (ds es : list Z) :
  horner base (ds ++ es) = horner base ds * base ^ Z.of_nat (List.length es) + horner base es.
Proof.
  unfold horner at 1. rewrite fold_left_app. fold (horner base ds).
  apply fold_horner_acc.
Qed.

(** [parseBaseFromArray] computes the positional value. *)
Lemma parseBaseFromArray_pair (ds : list Z) :
  fold_left (fun '(val, pow) d => (val + d * pow, pow * base)) (rev ds) (0, 1) =
  (horner base ds, base ^ Z.of_nat (List.length ds)).
Proof.
  induction ds as [|d ds IH].
  - reflexivity.
  - cbn [rev]. rewrite fold_left_app, IH. cbn [fold_left].
    rewrite horner_cons. cbn [List.length]. rewrite Nat2Z.inj_succ, Z.pow_succ_r by lia.
    f_equal; ring.
Qed.

Lemma parseBaseFromArray_horner (ds : list Z) (neg : bool) :
  bigInt.parseBaseFromArray ds base neg =
  if neg then - horner base ds else horner base ds.
Proof.
  unfold bigInt.parseBaseFromArray. rewrite parseBaseFromArray_pair. reflexivity.
Qed.

Lemma toBase_loop_out (fuel : nat) (left : Z) (out : list Z) :
  bigInt.toBase_loop fuel left base out = bigInt.toBase_loop fuel left base [] ++ out.
Proof.
  revert left out. induction fuel as [|fuel IH]; intros left out; [reflexivity|].
  cbn [bigInt.toBase_loop]. destruct (base <=? left); [|reflexivity].
  rewrite IH, (IH _ [left mod base]), <- app_assoc. reflexivity.
Qed.

Hypothesis base_gt_1 : 1 < base.

Lemma horner_bounds (ds : list Z) :
  digits_below base ds ->
  0 <= horner base ds < base ^ Z.of_nat (List.length ds).
Proof.
  intros H. induction H as [|d ds Hd _ IH].
  - cbn. lia.
  - rewrite horner_cons. cbn [List.length]. rewrite Nat2Z.inj_succ, Z.pow_succ_r by lia.
    assert (0 < base ^ Z.of_nat (List.length ds)) by (apply Z.pow_pos_nonneg; lia).
    nia.
Qed.

Lemma horner_leading (ds : list Z) :
  digits_below base ds -> leading_positive ds ->
  base ^ (Z.of_nat (List.length ds) - 1) <= horner base ds.
Proof.
  intros Hd Hp. destruct ds as [|d ds]; [contradiction|].
  rewrite horner_cons. cbn [List.length]. rewrite Nat2Z.inj_succ.
  replace (Z.succ (Z.of_nat (List.length ds)) - 1) with (Z.of_nat (List.length ds)) by lia.
  inversion Hd as [|? ? _ Hds]; subst.
  pose proof (horner_bounds ds Hds).
  assert (0 < base ^ Z.of_nat (List.length ds)) by (apply Z.pow_pos_nonneg; lia).
  cbn in Hp. nia.
Qed.

Lemma toBase_loop_spec (fuel : nat) (left : Z) :
  0 <= left < 2 ^ Z.of_nat fuel ->
  let ds := bigInt.toBase_loop fuel left base [] in
  horner base ds = left /\ digits_below base ds /\ (0 < left -> leading_positive ds) /\
  (left = 0 -> ds = [0]).
Proof.
  revert left. induction fuel as [|fuel IH]; intros left Hl ds; subst ds.
  - cbn in Hl. assert (left = 0) by lia. subst left. cbn.
    split; [reflexivity|split; [repeat constructor; lia|split; [lia|reflexivity]]].
  - cbn [bigInt.toBase_loop]. destruct (Z.leb_spec base left) as [Hge|Hlt].
    + rewrite toBase_loop_out.
      assert (Hq : 0 <= left / base < 2 ^ Z.of_nat fuel).
      { split; [apply Z.div_pos; lia|].
        rewrite Nat2Z.inj_succ, Z.pow_succ_r in Hl by lia.
        apply Z.div_lt_upper_bound; [lia|].
        assert (0 < 2 ^ Z.of_nat fuel) by (apply Z.pow_pos_nonneg; lia). nia. }
      destruct (IH (left / base) Hq) as (Hv & Hd & Hp & _).
      assert (Hqpos : 0 < left / base) by (apply Z.div_str_pos; lia).
      split; [|split; [|split]].
      * rewrite horner_app, Hv. change (Z.of_nat (List.length [left mod base])) with 1.
        change (horner base [left mod base]) with (0 * base + left mod base).
        rewrite Z.pow_1_r. rewrite (Z.div_mod left base) at 3 by lia. ring.
      * apply Forall_app. split; [exact Hd|].
        constructor; [apply Z.mod_pos_bound; lia | constructor].
      * intros _. specialize (Hp Hqpos).
        destruct (bigInt.toBase_loop fuel (left / base) base []); [contradiction | exact Hp].
      * lia.
    + split; [|split; [|split]].
      * unfold horner. cbn [fold_left]. lia.
      * repeat constructor; lia.
      * intros; cbn [leading_positive]; lia.
      * intros; subst; reflexivity.
Qed.

(** The digits [n.toArray(base).value] write [|n|], with no leading zero
    unless [n] is zero. *)
Lemma toBase_value (n : Z) :
  let ds := bigInt.value (bigInt.toBase n base) in
  horner base ds = Z.abs n /\ digits_below base ds /\
  (n <> 0 -> leading_positive ds) /\ (n = 0 -> ds = [0]).
Proof.
  intros ds. subst ds. unfold bigInt.toBase. cbn [bigInt.value].
  assert (Hfuel : 0 <= Z.abs n < 2 ^ Z.of_nat (S (Z.to_nat (Z.log2 (Z.abs n))))).
  { split; [lia|]. rewrite Nat2Z.inj_succ, Z2Nat.id by apply Z.log2_nonneg.
    destruct (Z.eq_dec (Z.abs n) 0) as [E|E].
    - rewrite E. cbn. lia.
    - apply Z.log2_spec. lia. }
  destruct (toBase_loop_spec _ _ Hfuel) as (Hv & Hd & Hp & Hz).
  repeat split; [exact Hv | exact Hd | intros; apply Hp; lia | intros; apply Hz; lia].
Qed.

End Positional.

(** ** Bytes *)

Lemma Z_of_byte_range (b : byte) : 0 <= Z_of_byte b < 256.
Proof.
  unfold Z_of_byte. pose proof (Byte.to_N_bounded b). lia.
Qed.

Lemma be_uint_nibbles (bs : Buffer) : horner 16 (nibbles bs) = be_uint bs.
Proof.
  unfold be_uint, horner. generalize 0 as acc.
  induction bs as [|b bs IH]; intros acc.
  - reflexivity.
  - cbn [nibbles flat_map app fold_left]. fold (nibbles bs). rewrite IH.
    f_equal. pose proof (Z.div_mod (Z_of_byte b) 16). lia.
Qed.

Lemma nibbles_below (bs : Buffer) : digits_below 16 (nibbles bs).
Proof.
  induction bs as [|b bs IH]; [constructor|].
  pose proof (Z_of_byte_range b) as Hb.
  cbn [nibbles flat_map app]. constructor; [|constructor; [|exact IH]].
  - split; [apply Z.div_pos; lia | apply Z.div_lt_upper_bound; lia].
  - apply Z.mod_pos_bound; lia.
Qed.

Lemma nibbles_length (bs : Buffer) : List.length (nibbles bs) = (2 * List.length bs)%nat.
Proof.
  induction bs as [|b bs IH]; [reflexivity|].
  cbn [nibbles flat_map app List.length]. fold (nibbles bs). lia.
Qed.

Lemma be_uint_bounds (bs : Buffer) :
  0 <= be_uint bs < 256 ^ Z.of_nat (List.length bs).
Proof.
  rewrite <- be_uint_nibbles.
  pose proof (horner_bounds 16 ltac:(lia) (nibbles bs) (nibbles_below bs)) as H.
  rewrite nibbles_length in H.
  replace (256 ^ Z.of_nat (List.length bs)) with (16 ^ Z.of_nat (2 * List.length bs)); [exact H|].
  rewrite Nat2Z.inj_mul, Z.pow_mul_r by lia. reflexivity.
Qed.

(** ** Hexadecimal text *)

Lemma hex_digit_cases (d : Z) (P : Z -> Prop) :
  0 <= d < 16 ->
  P 0 -> P 1 -> P 2 -> P 3 -> P 4 -> P 5 -> P 6 -> P 7 ->
  P 8 -> P 9 -> P 10 -> P 11 -> P 12 -> P 13 -> P 14 -> P 15 -> P d.
Proof.
  intros H.
  assert (E : d = 0 \/ d = 1 \/ d = 2 \/ d = 3 \/ d = 4 \/ d = 5 \/ d = 6 \/ d = 7 \/
              d = 8 \/ d = 9 \/ d = 10 \/ d = 11 \/ d = 12 \/ d = 13 \/ d = 14 \/ d = 15)
    by lia.
  intuition (subst; assumption).
Qed.

Lemma stringify_hex (d : Z) :
  0 <= d < 16 ->
  toLowerCase_char (stringify d) = stringify d /\
  alphabetValue (stringify d) = Some d /\
  Ascii.eqb (stringify d) "-" = false /\
  is_lower_hex (stringify d) = true /\
  (Ascii.eqb (stringify d) "0" = true -> d = 0).
Proof.
  intros H. pattern d. apply hex_digit_cases; [exact H| ..];
    (repeat split; try reflexivity; vm_compute; intros; congruence).
Qed.

Lemma Buffer_toString_hex_nibbles (bs : Buffer) :
  Buffer_toString_hex bs = string_of_list_ascii (map stringify (nibbles bs)).
Proof.
  induction bs as [|b bs IH]; [reflexivity|].
  cbn [Buffer_toString_hex nibbles flat_map app map string_of_list_ascii].
  fold (nibbles bs). now rewrite IH.
Qed.

Lemma check_digits_hex (ds : list Z) :
  digits_below 16 ds -> bigInt.check_digits 16 (map stringify ds) = inr tt.
Proof.
  induction 1 as [|d ds Hd _ IH]; [reflexivity|].
  destruct (stringify_hex d Hd) as (_ & Hv & Hm & _).
  cbn [map bigInt.check_digits]. rewrite Hm, Hv.
  destruct (Z.leb_spec 16 d); [lia | exact IH].
Qed.

Lemma read_digits_hex {pv : bigInt.Reader} (ds : list Z) :
  digits_below 16 ds -> bigInt.read_digits (map stringify ds) None = inr ds.
Proof.
  induction 1 as [|d ds Hd _ IH]; [reflexivity|].
  destruct (stringify_hex d Hd) as (_ & Hv & _).
  cbn [map bigInt.read_digits]. now rewrite Hv, IH.
Qed.

Lemma map_toLowerCase_hex (ds : list Z) :
  digits_below 16 ds -> map toLowerCase_char (map stringify ds) = map stringify ds.
Proof.
  induction 1 as [|d ds Hd _ IH]; [reflexivity|].
  destruct (stringify_hex d Hd) as (Hl & _).
  cbn [map]. now rewrite Hl, IH.
Qed.

(** Text made of hexadecimal digits is read back as its value. *)
Lemma parseBase16_hex {pv : bigInt.Reader} (ds : list Z) :
  digits_below 16 ds ->
  bigInt.parseBase16 (string_of_list_ascii (map stringify ds)) = inr (horner 16 ds).
Proof.
  intros H. unfold bigInt.parseBase16.
  rewrite list_ascii_of_string_of_list_ascii, (map_toLowerCase_hex ds H).
  rewrite (check_digits_hex ds H). cbn [bind_result].
  assert (Hneg : match map stringify ds with
                 | c :: _ => Ascii.eqb c "-"
                 | [] => false
                 end = false).
  { destruct H as [|d ds Hd _]; [reflexivity|].
    cbn [map]. now destruct (stringify_hex d Hd) as (_ & _ & Hm & _). }
  rewrite Hneg, (read_digits_hex ds H). cbn [bind_result].
  now rewrite parseBaseFromArray_horner.
Qed.

(** [bigInt(buf.toString('hex'), 16)] is the big-endian value of [buf]. *)
Lemma parseBase16_Buffer {pv : bigInt.Reader} (bs : Buffer) :
  bigInt.parseBase16 (Buffer_toString_hex bs) = inr (be_uint bs).
Proof.
  rewrite Buffer_toString_hex_nibbles, parseBase16_hex by apply nibbles_below.
  now rewrite be_uint_nibbles.
Qed.

(** ** The shortest byte encoding *)

(** [toArray(256)] returns exactly [byte_length n] digits. *)
Lemma toArray_256_length (n : Z) :
  Z.of_nat (List.length (bigInt.value (bigInt.toArray n 256))) = byte_length n.
Proof.
  unfold bigInt.toArray, byte_length.
  destruct (toBase_value 256 ltac:(lia) n) as (Hv & Hd & Hp & Hz).
  destruct (Z.eqb_spec (Z.abs n) 0) as [E|E].
  - rewrite Hz by lia. reflexivity.
  - set (ds := bigInt.value (bigInt.toBase n 256)) in *.
    set (len := Z.of_nat (List.length ds)).
    pose proof (horner_bounds 256 ltac:(lia) ds Hd) as Hub.
    pose proof (horner_leading 256 ltac:(lia) ds Hd (Hp ltac:(lia))) as Hlb.
    rewrite Hv in Hub, Hlb. fold len in Hub, Hlb.
    assert (Hlen : 1 <= len).
    { subst len. destruct ds; [cbn in Hub; lia | cbn [List.length]; lia]. }
    replace 256 with (2 ^ 8) in Hub, Hlb by reflexivity.
    rewrite <- Z.pow_mul_r in Hub, Hlb by lia.
    assert (Hlo : 8 * (len - 1) <= Z.log2 (Z.abs n)) by (apply Z.log2_le_pow2; lia).
    assert (Hhi : Z.log2 (Z.abs n) < 8 * len) by (apply Z.log2_lt_pow2; lia).
    clearbody len. clear - Hlo Hhi.
    symmetry. rewrite Z.add_comm. apply Z.add_move_l. symmetry.
    apply Z.div_unique with (r := Z.log2 (Z.abs n) - 8 * (len - 1)); lia.
Qed.

(** ** [modPow] *)

Lemma rem_pow_rem (c m k : Z) :
  m <> 0 -> 0 <= k -> Z.rem (Z.rem c m ^ k) m = Z.rem (c ^ k) m.
Proof.
  intros Hm Hk. pattern k. apply natlike_ind; [reflexivity| |exact Hk].
  intros j Hj IH. rewrite !Z.pow_succ_r by exact Hj.
  rewrite Z.mul_rem, IH, Z.rem_rem, <- Z.mul_rem by exact Hm. reflexivity.
Qed.

Lemma rem_mul_pow_congr (r1 r2 b1 b2 m k : Z) :
  m <> 0 -> 0 <= k -> Z.rem r1 m = Z.rem r2 m -> Z.rem b1 m = Z.rem b2 m ->
  Z.rem (r1 * b1 ^ k) m = Z.rem (r2 * b2 ^ k) m.
Proof.
  intros Hm Hk Hr Hb.
  rewrite (Z.mul_rem r1), (Z.mul_rem r2) by exact Hm.
  rewrite <- (rem_pow_rem b1), <- (rem_pow_rem b2), Hr, Hb by assumption.
  reflexivity.
Qed.

Lemma modPow_loop_spec (m : Z) (exp : positive) (r base : Z) :
  m <> 0 -> bigInt.modPow_loop r base exp m = Z.rem (r * base ^ Z.pos exp) m.
Proof.
  intros Hm. revert r base.
  induction exp as [e IH|e IH|]; intros r base; cbn [bigInt.modPow_loop];
    unfold bigInt.mod_, bigInt.multiply;
    (destruct (Z.eqb_spec base 0) as [E|E];
     [subst base; rewrite Z.pow_0_l by lia; now rewrite Z.mul_0_r, Z.rem_0_l|]).
  - rewrite IH. rewrite Pos2Z.inj_xI.
    replace (r * base ^ (2 * Z.pos e + 1)) with ((r * base) * (base * base) ^ Z.pos e).
    + apply rem_mul_pow_congr; try lia; now rewrite Z.rem_rem.
    + rewrite Z.pow_add_r, Z.pow_mul_r, Z.pow_1_r, Z.pow_2_r by lia. ring.
  - rewrite IH. rewrite Pos2Z.inj_xO.
    replace (base ^ (2 * Z.pos e)) with ((base * base) ^ Z.pos e).
    + apply rem_mul_pow_congr; try lia; now rewrite ?Z.rem_rem.
    + rewrite Z.pow_mul_r, Z.pow_2_r by lia. reflexivity.
  - now rewrite Z.pow_1_r.
Qed.

(** [b.modPow(exp, m)] is the truncated remainder of [b ^ exp]. *)
Lemma modPow_spec (b : Z) (exp : N) (m : Z) :
  1 < Z.abs m -> bigInt.modPow b exp m = Z.rem (b ^ Z.of_N exp) m.
Proof.
  intros Hm. destruct exp as [|p]; cbn [bigInt.modPow Z.of_N].
  - rewrite Z.pow_0_r. symmetry. apply Z.rem_small_iff; lia.
  - rewrite modPow_loop_spec by lia. unfold bigInt.mod_.
    rewrite Z.mul_1_l. apply rem_pow_rem; lia.
Qed.

(** ** The group constants *)

Lemma N_gt_1 : 1 < PrimeGroup.N.
Proof. reflexivity. Qed.

Lemma N_factor : PrimeGroup.N = 4 * N_odd_part /\ N_odd_part mod 2 = 1 /\ 1 < N_odd_part.
Proof. repeat split; vm_compute; reflexivity. Qed.

Lemma pow2_mod_N_nonzero (k : Z) : 0 <= k -> 2 ^ k mod PrimeGroup.N <> 0.
Proof.
  intros Hk H. destruct N_factor as (HN & Hodd & Hgt).
  apply Z.mod_divide in H; [|pose proof N_gt_1; lia].
  assert (Hdiv : (N_odd_part | 2 ^ k)).
  { apply Z.divide_trans with PrimeGroup.N; [|exact H].
    exists 4. rewrite HN at 1. ring. }
  assert (Hrel : Z.gcd N_odd_part (2 ^ k) = 1).
  { apply Z.coprime_pow_r; [exact Hk|]. vm_compute. reflexivity. }
  apply Z.divide_gcd_iff in Hdiv; lia.
Qed.

(** [g.modPow(e, N)] is a residue between 1 and [N - 1]. *)
Lemma g_modPow_range (e : N) :
  1 <= bigInt.modPow PrimeGroup.g e PrimeGroup.N < PrimeGroup.N.
Proof.
  pose proof N_gt_1 as HN.
  rewrite modPow_spec by lia. unfold PrimeGroup.g.
  assert (He : 0 <= Z.of_N e) by lia.
  rewrite Z.rem_mod_nonneg by (try lia; apply Z.pow_nonneg; lia).
  pose proof (Z.mod_pos_bound (2 ^ Z.of_N e) PrimeGroup.N ltac:(lia)).
  pose proof (pow2_mod_N_nonzero (Z.of_N e) He). lia.
Qed.

(** ** [Buffer.concat] *)

Lemma Buffer_concat_buffers (a b : Buffer) :
  Buffer_concat [item_Buffer a; item_Buffer b] = inr (a ++ b).
Proof. unfold Buffer_concat. cbn. now rewrite app_nil_r. Qed.

Lemma Buffer_concat_array_first (a : list Z) (rest : list concat_item) :
  Buffer_concat (item_Array a :: rest) = inl (concat_error 0).
Proof. reflexivity. Qed.

(** ** Runs of [createPasswordCheckPayload] *)

Lemma lines_121_125_run {pv : bigInt.Reader} (password : string) (p : ApiObject) :
  lines_121_125 password p =
  match Buffer_from_base64 (current_salt p) with
  | inl e => inl e
  | inr salt => inr (secret_of salt password)
  end.
Proof.
  unfold lines_121_125. destruct (Buffer_from_base64 (current_salt p)) as [e|salt]; [reflexivity|].
  cbn [bind_result]. rewrite Buffer_concat_buffers. cbn [bind_result].
  rewrite parseBase16_Buffer. reflexivity.
Qed.

Lemma lines_126_127_run {pv : bigInt.Reader} (w : world) :
  lines_126_127 w = (inr (ephemeral_of w), after_random w).
Proof.
  unfold lines_126_127, bind, lift, crypto_randomBytes, ret.
  fold (next_random w). fold (after_random w). rewrite parseBase16_Buffer. reflexivity.
Qed.

Lemma lines_121_129_run {pv : bigInt.Reader} (password : string) (p : ApiObject) (w : world) :
  lines_121_129 password p w =
  match Buffer_from_base64 (current_salt p) with
  | inl e => (inl e, w)
  | inr salt =>
      match bigInt.Integer16 (srp_B p) with
      | inl e => (inl e, after_random w)
      | inr B =>
          (inr {| secret := secret_of salt password; ephemeral := ephemeral_of w; v_B := B |},
           after_random w)
      end
  end.
Proof.
  unfold lines_121_129, bind, lift, ret. rewrite lines_121_125_run.
  destruct (Buffer_from_base64 (current_salt p)) as [e|salt]; [reflexivity|].
  rewrite lines_126_127_run.
  destruct (bigInt.Integer16 (srp_B p)) as [e|B]; reflexivity.
Qed.

(** Lines 130 to 134 end at the first [Buffer.concat], whatever the
    bindings. *)
Lemma lines_130_134_run {pv : bigInt.Reader} (b : Bindings) :
  lines_130_134 b = inl (concat_error 0).
Proof. reflexivity. Qed.

Lemma createPasswordCheckPayload_run {pv : bigInt.Reader}
    (password : string) (p : ApiObject) (w : world) :
  createPasswordCheckPayload password p w =
  match Buffer_from_base64 (current_salt p) with
  | inl e => (inl e, w)
  | inr _ =>
      (match bigInt.Integer16 (srp_B p) with
       | inl e => inl e
       | inr _ => inl (concat_error 0)
       end, after_random w)
  end.
Proof.
  unfold createPasswordCheckPayload, bind. rewrite lines_121_129_run.
  destruct (Buffer_from_base64 (current_salt p)) as [e|salt]; [reflexivity|].
  destruct (bigInt.Integer16 (srp_B p)) as [e|B]; reflexivity.
Qed.

Lemma Buffer_from_base64_present (text : string) :
  exists salt, Buffer_from_base64 (Some text) = inr salt.
Proof. eexists. reflexivity. Qed.

(** ** Digests and random bytes *)

Lemma sha256_length (msg : Buffer) : List.length (sha256 msg) = 32%nat.
Proof.
  unfold sha256, SHA256.digest.
  generalize (SHA256.blocks (Nat.div (List.length (SHA256.pad msg)) 64)
                SHA256.H_init (SHA256.pad msg)).
  intros s. reflexivity.
Qed.

Lemma next_random_length (w : world) : List.length (next_random w) = 256%nat.
Proof. unfold next_random. now rewrite length_map, length_seq. Qed.

(** ** Sample bindings *)

(** The random bytes of [sample_world] and of [shifted_world] spell the
    exponent 1. *)
Lemma sample_world_a : be_uint (next_random sample_world) = 1.
Proof. vm_compute. reflexivity. Qed.

Lemma shifted_world_a : be_uint (next_random shifted_world) = 1.
Proof. vm_compute. reflexivity. Qed.


Lemma sample_x :
  v_x (secret_of (Buffer_from_utf8 "s") "p") =
  85983118055533871055172442837596251233892321827050293104266399425426538297153.
Proof. vm_compute. reflexivity. Qed.


(** ** Theorems on the specification *)

(** C2. The generator is 2 and the modulus is the number the source text
    spells, a constant of the function; but that number has 178
    hexadecimal digits, 712 bits and 89 bytes, not 2048 bits and 256
    bytes, and it is a multiple of 4, so it is not a prime. *)
Theorem C2_group_constants {pv : bigInt.Reader} :
  PrimeGroup.g = 2 /\
  bigInt.parseBase16 PrimeGroup.N_text = inr PrimeGroup.N /\
  String.length PrimeGroup.N_text = 178%nat /\
  Z.log2 PrimeGroup.N + 1 = 712 /\
  byte_length PrimeGroup.N = 89 /\
  PrimeGroup.N mod 4 = 0 /\
  ~ Z.prime PrimeGroup.N.
Proof.
  do 6 (split; [vm_compute; reflexivity|]).
  intros [_ Hp]. apply (Hp 2).
  - pose proof N_gt_1. destruct N_factor as (HN & _ & Hgt). lia.
  - destruct N_factor as (HN & _). exists (2 * N_odd_part). lia.
Qed.

(** C5. Lines 121 to 125 run whenever [current_salt] is present: they
    bind the decoded salt, and the secret [x] is the SHA-256 digest of
    the salt followed by the UTF-8 bytes of the password, read as a
    big-endian unsigned integer (so below 2^256).  The bindings are a
    function of the salt text and the password alone: any other
    parameters with the same [current_salt] give the same ones. *)
Theorem C5_session_secret {pv : bigInt.Reader}
    (password : string) (p : ApiObject) (text : string) :
  current_salt p = Some text ->
  exists s,
    lines_121_125 password p = inr s /\
    Buffer_from_base64 (Some text) = inr (v_salt s) /\
    v_passwordHash s = sha256 (v_salt s ++ Buffer_from_utf8 password) /\
    v_x s = be_uint (v_passwordHash s) /\
    0 <= v_x s < 2 ^ 256 /\
    (forall p' : ApiObject,
        current_salt p' = current_salt p -> lines_121_125 password p' = inr s).
Proof.
  intros Hs. destruct (Buffer_from_base64_present text) as (salt & Hsalt).
  exists (secret_of salt password).
  split; [rewrite lines_121_125_run, Hs, Hsalt; reflexivity|].
  split; [exact Hsalt|]. split; [reflexivity|]. split; [reflexivity|]. split.
  - unfold secret_of. cbn [v_x].
    pose proof (be_uint_bounds (sha256 (salt ++ Buffer_from_utf8 password))) as Hb.
    rewrite sha256_length in Hb. exact Hb.
  - intros p' Hp'. rewrite lines_121_125_run, Hp', Hs, Hsalt. reflexivity.
Qed.

(** Witness of C5: salt ["s"], password ["p"]. *)
Lemma C5_session_secret_witness :
  exists s,
    lines_121_125 (pv := bigInt.no_escape) "p" (params_of (JNum 7) "1" "cw==") = inr s /\
    v_salt s = Buffer_from_utf8 "s" /\
    v_x s = be_uint (sha256 (Buffer_from_utf8 "sp")) /\
    be_uint (sha256 (Buffer_from_utf8 "sp")) =
      85983118055533871055172442837596251233892321827050293104266399425426538297153.
Proof.
  destruct (C5_session_secret (pv := bigInt.no_escape) "p" (params_of (JNum 7) "1" "cw==")
              "cw==" eq_refl) as (s & Hrun & Hsalt & Hhash & Hx & _).
  assert (Hs : v_salt s = Buffer_from_utf8 "s") by (injection Hsalt as <-; reflexivity).
  exists s. split; [exact Hrun|]. split; [exact Hs|]. split.
  - rewrite Hx, Hhash, Hs. reflexivity.
  - vm_compute. reflexivity.
Defined.

(** C6. Lines 126 and 127 always run to their end: the exponent [a] is
    the integer read from the next 256 random bytes, so
    [0 <= a < 2^2048], and the public value [A = g^a mod N] lies between
    1 and [N - 1]; more generally [g.modPow(k, N)] is never 0, whatever
    the exponent. *)
Theorem C6_public_ephemeral_range {pv : bigInt.Reader} (w : world) :
  exists e,
    lines_126_127 w = (inr e, after_random w) /\
    v_a e = be_uint (next_random w) /\
    0 <= v_a e < 2 ^ 2048 /\
    v_A e = PrimeGroup.g ^ v_a e mod PrimeGroup.N /\
    1 <= v_A e <= PrimeGroup.N - 1 /\
    (forall k : N, bigInt.modPow PrimeGroup.g k PrimeGroup.N <> 0).
Proof.
  exists (ephemeral_of w). split; [apply lines_126_127_run|].
  unfold ephemeral_of. cbn [v_a v_A].
  pose proof (be_uint_bounds (next_random w)) as Ha.
  rewrite next_random_length in Ha.
  change (256 ^ Z.of_nat 256) with (2 ^ 2048) in Ha.
  pose proof N_gt_1 as HN.
  split; [reflexivity|]. split; [exact Ha|]. split; [|split].
  - rewrite modPow_spec, Z2N.id by lia.
    apply Z.rem_mod_nonneg; [apply Z.pow_nonneg; unfold PrimeGroup.g|]; lia.
  - pose proof (g_modPow_range (Z.to_N (be_uint (next_random w)))). lia.
  - intros k. pose proof (g_modPow_range k). lia.
Qed.

(** C1, on the code.  The lists handed to [Buffer.concat] on lines 130
    and 134 hold the plain arrays [toArray(256).value], not buffers, and
    [Buffer.concat] refuses a list that starts with an array: lines 130
    to 134 end with that [TypeError] whatever the bindings, no hash input
    is formed, and every call whose salt is present and whose [srp_B] is
    readable ends with it, as the call with the password ["p"], the salt
    ["s"] and the challenge 1 does.  The arrays are not padded either:
    the array of [v] has [byte_length v] entries, a single one for
    [A = 2], where [N] takes 89 bytes. *)
Theorem C1_hash_inputs_refused {pv : bigInt.Reader} :
  (forall (a : list Z) (rest : list concat_item),
     Buffer_concat (item_Array a :: rest) = inl (concat_error 0)) /\
  (forall b : Bindings, lines_130_134 b = inl (concat_error 0)) /\
  (forall (password : string) (p : ApiObject) (w : world) (text : string) (B : Z),
     current_salt p = Some text -> bigInt.Integer16 (srp_B p) = inr B ->
     createPasswordCheckPayload password p w = (inl (concat_error 0), after_random w)) /\
  createPasswordCheckPayload "p" (params_of (JNum 7) "1" "cw==") sample_world =
    (inl (concat_error 0), after_random sample_world) /\
  (forall v : Z,
     Z.of_nat (List.length (bigInt.value (bigInt.toArray v 256))) = byte_length v) /\
  bigInt.value (bigInt.toArray 2 256) = [2] /\
  byte_length PrimeGroup.N = 89.
Proof.
  split; [intros; apply Buffer_concat_array_first|].
  split; [apply lines_130_134_run|].
  split.
  { intros password p w text B Hs HB.
    rewrite createPasswordCheckPayload_run, Hs, HB. reflexivity. }
  split; [rewrite createPasswordCheckPayload_run; reflexivity|].
  split; [apply toArray_256_length|].
  split; [reflexivity | vm_compute; reflexivity].
Qed.

(** ** The base of the shared secret *)

Lemma g_modPow_even (e : N) :
  e <> 0%N -> Z.even (bigInt.modPow PrimeGroup.g e PrimeGroup.N) = true.
Proof.
  intros He. pose proof N_gt_1 as HN. destruct N_factor as (HNf & _).
  rewrite modPow_spec by lia. unfold PrimeGroup.g.
  rewrite Z.rem_mod_nonneg by (try lia; apply Z.pow_nonneg; lia).
  rewrite Z.mod_eq by lia.
  replace (2 ^ Z.of_N e) with (2 * 2 ^ (Z.of_N e - 1)).
  - rewrite HNf at 1.
    replace (2 * 2 ^ (Z.of_N e - 1) - 4 * N_odd_part * (2 * 2 ^ (Z.of_N e - 1) / PrimeGroup.N))
      with (2 * (2 ^ (Z.of_N e - 1) - 2 * N_odd_part * (2 * 2 ^ (Z.of_N e - 1) / PrimeGroup.N)))
      by ring.
    apply Z.even_mul.
  - rewrite <- Z.pow_succ_r by lia. f_equal. lia.
Qed.

(** A negative odd base raised to an odd power keeps its sign through
    [modPow]: the remainders of the loop follow the sign of the dividend
    and [N] is even. *)
Lemma modPow_negative_odd (b e : Z) :
  b < 0 -> Z.odd b = true -> Z.odd e = true -> 0 < e ->
  bigInt.modPow b (Z.to_N e) PrimeGroup.N < 0.
Proof.
  intros Hb Hob Hoe He. pose proof N_gt_1 as HN. destruct N_factor as (HNf & _).
  rewrite modPow_spec, Z2N.id by lia.
  assert (Hneg : b ^ e < 0).
  { replace b with (- (- b)) by lia.
    rewrite Z.pow_opp_odd by (apply Z.odd_spec; exact Hoe).
    assert (0 < (- b) ^ e) by (apply Z.pow_pos_nonneg; lia). lia. }
  assert (Hodd : Z.odd (b ^ e) = true) by (rewrite Z.odd_pow by lia; exact Hob).
  assert (Hnz : Z.rem (b ^ e) PrimeGroup.N <> 0).
  { intros H0. apply Z.rem_divide in H0; [|lia].
    destruct H0 as [q Hq].
    rewrite Hq, HNf, Z.odd_mul, (Z.odd_mul 4) in Hodd.
    cbn in Hodd. rewrite andb_false_r in Hodd. discriminate. }
  pose proof (Z.rem_sign_nz (b ^ e) PrimeGroup.N ltac:(lia) Hnz) as Hs.
  rewrite (Z.sgn_neg (b ^ e)) in Hs by exact Hneg.
  apply Z.sgn_neg_iff. exact Hs.
Qed.

(** With the challenge 1, a positive secret [x] and an odd exponent, the
    receiver of the outer [modPow] is negative, [modPow] starts from it
    unchanged, and the result is negative. *)
Lemma S_negative_at_one (x e : Z) :
  0 < x -> Z.odd e = true -> 0 < e ->
  S_base 1 x = 1 - PrimeGroup.g ^ x mod PrimeGroup.N /\
  S_base 1 x < 0 /\
  bigInt.mod_ (S_base 1 x) PrimeGroup.N = S_base 1 x /\
  bigInt.modPow (S_base 1 x) (Z.to_N e) PrimeGroup.N < 0.
Proof.
  intros Hx Hoe He. pose proof N_gt_1 as HN.
  pose proof (g_modPow_range (Z.to_N x)) as HG.
  pose proof (g_modPow_even (Z.to_N x) ltac:(lia)) as HGe.
  assert (Hbase : S_base 1 x = 1 - PrimeGroup.g ^ x mod PrimeGroup.N).
  { unfold S_base, bigInt.subtract. rewrite modPow_spec, Z2N.id by lia.
    rewrite Z.rem_mod_nonneg; [reflexivity | apply Z.pow_nonneg; unfold PrimeGroup.g; lia | lia]. }
  assert (Hlt : S_base 1 x < 0).
  { unfold S_base, bigInt.subtract.
    destruct (Z.eq_dec (bigInt.modPow PrimeGroup.g (Z.to_N x) PrimeGroup.N) 1) as [E|E]; [|lia].
    rewrite E in HGe. discriminate. }
  split; [exact Hbase|]. split; [exact Hlt|]. split.
  - unfold bigInt.mod_. apply Z.rem_small_iff; [lia|].
    unfold S_base, bigInt.subtract in *. lia.
  - apply modPow_negative_odd; [exact Hlt| |exact Hoe|exact He].
    unfold S_base, bigInt.subtract.
    rewrite Z.odd_sub, <- (Z.negb_even (bigInt.modPow _ _ _)), HGe. reflexivity.
Qed.

(** C3, on the code.  The receiver of the outer [modPow] on line 133 is
    the plain difference [B - g^x mod N]: negative whenever
    [0 <= B < g^x mod N], and [modPow] starts from its remainder by [N],
    which follows the sign of the dividend and is the same negative
    number.  With the password ["p"] and the salt ["s"], lines 121 to 129
    bind an [x] for which the challenge [B = 1], which lies in
    [1, N - 1], gives a negative receiver, and line 133 gives a negative
    number for every odd exponent.  Under the modulus 17,
    [bigInt(3).subtract(10).mod(17)] is [-7], not 10.  Line 133 itself is
    never reached: lines 130 to 134 end at the [Buffer.concat] of line
    130. *)
Theorem C3_base_not_normalized {pv : bigInt.Reader} :
  (forall B x : Z,
     0 <= x ->
     S_base B x = B - PrimeGroup.g ^ x mod PrimeGroup.N /\
     (0 <= B < PrimeGroup.g ^ x mod PrimeGroup.N ->
      S_base B x < 0 /\ bigInt.mod_ (S_base B x) PrimeGroup.N = S_base B x)) /\
  (forall w : world,
     exists b,
       fst (lines_121_129 "p" (params_of (JNum 7) "1" "cw==") w) = inr b /\
       1 <= v_B b < PrimeGroup.N /\
       S_base (v_B b) (v_x (secret b)) < 0 /\
       (forall a u : Z,
          0 < a + u * v_x (secret b) -> Z.odd (a + u * v_x (secret b)) = true ->
          line_133 (v_x (secret b)) a (v_B b) u < 0)) /\
  (forall b : Bindings, lines_130_134 b = inl (concat_error 0)) /\
  bigInt.mod_ (bigInt.subtract 3 10) 17 = -7.
Proof.
  pose proof N_gt_1 as HN.
  split; [|split; [|split; [apply lines_130_134_run | reflexivity]]].
  - intros B x Hx.
    assert (Hbase : S_base B x = B - PrimeGroup.g ^ x mod PrimeGroup.N).
    { unfold S_base, bigInt.subtract. rewrite modPow_spec, Z2N.id by lia.
      rewrite Z.rem_mod_nonneg;
        [reflexivity | apply Z.pow_nonneg; unfold PrimeGroup.g; lia | lia]. }
    split; [exact Hbase|]. intros HB.
    pose proof (Z.mod_pos_bound (PrimeGroup.g ^ x) PrimeGroup.N ltac:(lia)) as Hm.
    split; [lia|]. unfold bigInt.mod_. apply Z.rem_small_iff; lia.
  - intros w.
    exists {| secret := secret_of (Buffer_from_utf8 "s") "p";
              ephemeral := ephemeral_of w; v_B := 1 |}.
    split.
    + rewrite lines_121_129_run. reflexivity.
    + cbn [v_B secret]. rewrite sample_x.
      split; [lia|]. split.
      * exact (proj1 (proj2 (S_negative_at_one
                 85983118055533871055172442837596251233892321827050293104266399425426538297153
                 1 eq_refl eq_refl eq_refl))).
      * intros a u Hpos Hodd. unfold line_133, bigInt.add, bigInt.multiply.
        apply S_negative_at_one; [reflexivity | exact Hodd | exact Hpos].
Qed.

(** ** No range check on the challenge *)



(** ** The payload *)

(** C7, on the code.  No call of [createPasswordCheckPayload] returns a
    payload: every call ends with an exception, which is the [TypeError]
    of decoding an absent salt, the error of reading [srp_B], or, in
    every other case, the [TypeError] that [Buffer.concat] throws on
    line 130.  The object of lines 136 to 141 is never built. *)
Theorem C7_no_payload_returned {pv : bigInt.Reader}
    (password : string) (p : ApiObject) (w : world) :
  exists e : exn,
    fst (createPasswordCheckPayload password p w) = inl e /\
    ((current_salt p = None /\ e = salt_error) \/
     ((exists text, current_salt p = Some text) /\ bigInt.Integer16 (srp_B p) = inl e) \/
     ((exists text B, current_salt p = Some text /\ bigInt.Integer16 (srp_B p) = inr B) /\
      e = concat_error 0)).
Proof.
  rewrite createPasswordCheckPayload_run.
  destruct (current_salt p) as [text|]; cbn [Buffer_from_base64 fst].
  - destruct (bigInt.Integer16 (srp_B p)) as [e|B].
    + exists e. split; [reflexivity|]. right. left. split; [now exists text | reflexivity].
    + exists (concat_error 0). split; [reflexivity|]. right. right.
      split; [now exists text, B | reflexivity].
  - exists salt_error. split; [reflexivity|]. left. now split.
Qed.

(** ** The parameter step *)

Lemma getPasswordParams_run (w : world) :
  getPasswordParams w =
  (match remote w account_getPassword with
   | inl e => inl e
   | inr None =>
       inl (Error
         "No response from account.getPassword API. Check bot permissions or API availability.")
   | inr (Some d) =>
       if missing_fields d
       then inl (Error "Missing required fields in password details response")
       else inr d
   end, logged w account_getPassword).
Proof.
  unfold getPasswordParams, bind, callApi, throw, ret, missing_fields.
  fold (logged w account_getPassword).
  destruct (remote w account_getPassword) as [e|[d|]]; try reflexivity.
  destruct (orb _ _); reflexivity.
Qed.

(** C8. When the answer to [account.getPassword] lacks [srp_id], [srp_B]
    or [current_salt], [getPasswordParams] throws the error "Missing
    required fields in password details response"; the withdrawal
    request fails with that same error, after the one call to
    [account.getPassword]: no random bytes are drawn and no payload is
    sent. *)
Theorem C8_missing_fields_rejected {pv : bigInt.Reader}
    (w : world) (d : ApiObject) (stars : jsval) (password : string) :
  remote w account_getPassword = inr (Some d) ->
  srp_id d = JUndefined \/ srp_B d = None \/ current_salt d = None ->
  let e := Error "Missing required fields in password details response" in
  fst (getPasswordParams w) = inl e /\
  fst (getStarsRevenueWithdrawalUrl stars password w) = inl e /\
  calls (snd (getStarsRevenueWithdrawalUrl stars password w)) =
    calls w ++ [account_getPassword] /\
  cursor (snd (getStarsRevenueWithdrawalUrl stars password w)) = cursor w.
Proof.
  intros Hr Hmiss e.
  assert (Hm : missing_fields d = true).
  { unfold missing_fields. destruct Hmiss as [H|[H|H]]; rewrite H; cbn;
      rewrite ?orb_true_r; reflexivity. }
  unfold getStarsRevenueWithdrawalUrl, bind.
  rewrite getPasswordParams_run, Hr, Hm. cbn [fst snd logged calls cursor].
  repeat split.
Qed.

(** Witness of C8: an answer without [srp_B]. *)
Lemma C8_missing_fields_rejected_witness :
  let d := {| srp_id := JNum 7; srp_B := None; current_salt := Some "cw=="%string;
              url := JUndefined |} in
  fst (getStarsRevenueWithdrawalUrl (pv := bigInt.no_escape) (JNum 5) "p"
         (world_with x01 (Some d))) =
    inl (Error "Missing required fields in password details response") /\
  calls (snd (getStarsRevenueWithdrawalUrl (pv := bigInt.no_escape) (JNum 5) "p"
                (world_with x01 (Some d)))) =
    [account_getPassword].
Proof.
  intros d.
  destruct (C8_missing_fields_rejected (pv := bigInt.no_escape)
              (world_with x01 (Some d)) d (JNum 5) "p"
              eq_refl (or_intror (or_introl eq_refl))) as (_ & H1 & H2 & _).
  split; [exact H1 | exact H2].
Defined.

(** ** Determinism *)

(** C9, on the code.  Two calls with the same password and parameters
    whose random bytes spell the same exponent [a] make the same
    bindings on lines 121 to 129, but neither goes on to [u], [S] and
    [M1] nor returns a payload: both end with the same exception. *)
Theorem C9_fixed_ephemeral_no_payload {pv : bigInt.Reader}
    (password : string) (p : ApiObject) (w1 w2 : world) :
  be_uint (next_random w1) = be_uint (next_random w2) ->
  fst (lines_121_129 password p w1) = fst (lines_121_129 password p w2) /\
  exists e : exn,
    fst (createPasswordCheckPayload password p w1) = inl e /\
    fst (createPasswordCheckPayload password p w2) = inl e.
Proof.
  intros Ha.
  assert (He : ephemeral_of w1 = ephemeral_of w2).
  { unfold ephemeral_of. rewrite Ha. reflexivity. }
  rewrite !lines_121_129_run, !createPasswordCheckPayload_run, He. clear He Ha.
  destruct (Buffer_from_base64 (current_salt p)) as [e|salt].
  - split; [reflexivity|]. exists e. split; reflexivity.
  - destruct (bigInt.Integer16 (srp_B p)) as [e|B]; (split; [reflexivity|]).
    + exists e. split; reflexivity.
    + exists (concat_error 0). split; reflexivity.
Qed.

(** Witness of C9: two worlds that differ in their tape, cursor and
    remote and spell the exponent 1. *)
Lemma C9_fixed_ephemeral_no_payload_witness :
  fst (createPasswordCheckPayload (pv := bigInt.no_escape) "p" (params_of (JNum 7) "1" "cw==")
         sample_world) = inl (concat_error 0) /\
  fst (createPasswordCheckPayload (pv := bigInt.no_escape) "p" (params_of (JNum 7) "1" "cw==")
         shifted_world) = inl (concat_error 0) /\
  fst (lines_121_129 (pv := bigInt.no_escape) "p" (params_of (JNum 7) "1" "cw==") sample_world) =
  fst (lines_121_129 (pv := bigInt.no_escape) "p" (params_of (JNum 7) "1" "cw==") shifted_world).
Proof.
  destruct (C9_fixed_ephemeral_no_payload (pv := bigInt.no_escape) "p"
              (params_of (JNum 7) "1" "cw==") sample_world shifted_world
              (eq_trans sample_world_a (eq_sym shifted_world_a))) as (Hb & _).
  split; [rewrite createPasswordCheckPayload_run; reflexivity|].
  split; [rewrite createPasswordCheckPayload_run; reflexivity | exact Hb].
Defined.

(** C10, on the code.  Two calls that bind the same exponent [a] and the
    same challenge [B] on lines 121 to 129, whatever their passwords and
    salts, bind the same [A]; but [u] is bound on line 131, and both
    calls end on line 130 with the [TypeError] of [Buffer.concat]: no
    [u] is computed. *)
Theorem C10_u_never_computed {pv : bigInt.Reader}
    (password1 password2 : string) (p1 p2 : ApiObject) (w1 w2 : world) (b1 b2 : Bindings) :
  fst (lines_121_129 password1 p1 w1) = inr b1 ->
  fst (lines_121_129 password2 p2 w2) = inr b2 ->
  v_a (ephemeral b1) = v_a (ephemeral b2) -> v_B b1 = v_B b2 ->
  v_A (ephemeral b1) = v_A (ephemeral b2) /\
  lines_130_134 b1 = inl (concat_error 0) /\
  lines_130_134 b2 = inl (concat_error 0) /\
  fst (createPasswordCheckPayload password1 p1 w1) = inl (concat_error 0) /\
  fst (createPasswordCheckPayload password2 p2 w2) = inl (concat_error 0).
Proof.
  rewrite !lines_121_129_run, !createPasswordCheckPayload_run.
  destruct (Buffer_from_base64 (current_salt p1)) as [e1|s1]; [discriminate|].
  destruct (Buffer_from_base64 (current_salt p2)) as [e2|s2]; [discriminate|].
  destruct (bigInt.Integer16 (srp_B p1)) as [e1|B1]; [discriminate|].
  destruct (bigInt.Integer16 (srp_B p2)) as [e2|B2]; [discriminate|].
  cbn [fst]. intros H1 H2. injection H1 as <-. injection H2 as <-.
  unfold ephemeral_of. cbn [ephemeral v_a v_A v_B]. intros Ha _.
  rewrite Ha. repeat split.
Qed.

(** Witness of C10: the passwords ["p"] and ["q"], the salts ["s"] and
    ["t"], the exponent 1 and the challenge 1. *)
Lemma C10_u_never_computed_witness :
  fst (createPasswordCheckPayload (pv := bigInt.no_escape) "p" (params_of (JNum 7) "1" "cw==")
         sample_world) = inl (concat_error 0) /\
  fst (createPasswordCheckPayload (pv := bigInt.no_escape) "q" (params_of (JNum 8) "1" "dA==")
         shifted_world) = inl (concat_error 0).
Proof.
  destruct (C10_u_never_computed (pv := bigInt.no_escape) "p" "q"
              (params_of (JNum 7) "1" "cw==") (params_of (JNum 8) "1" "dA==")
              sample_world shifted_world
              {| secret := secret_of (Buffer_from_utf8 "s") "p";
                 ephemeral := ephemeral_of sample_world; v_B := 1 |}
              {| secret := secret_of (Buffer_from_utf8 "t") "q";
                 ephemeral := ephemeral_of shifted_world; v_B := 1 |})
    as (_ & _ & _ & H1 & H2).
  - rewrite lines_121_129_run. reflexivity.
  - rewrite lines_121_129_run. reflexivity.
  - unfold ephemeral_of. cbn [ephemeral v_a].
    exact (eq_trans sample_world_a (eq_sym shifted_world_a)).
  - reflexivity.
  - split; [exact H1 | exact H2].
Defined.

(* ===================================================================== *)
(** * Further properties of the code *)
(* ===================================================================== *)

(** ** [createPasswordCheckPayload]: effects *)

(** The function never calls the API and leaves the entropy tape as it
    is; it draws no random byte when [current_salt] is absent, failing at
    once with the [TypeError] of [Buffer.from], and exactly 256 bytes
    otherwise, also when [srp_B] then fails to parse. *)
Theorem payload_side_effects {pv : bigInt.Reader}
    (password : string) (p : ApiObject) (w : world) :
  let r := createPasswordCheckPayload password p w in
  calls (snd r) = calls w /\ entropy (snd r) = entropy w /\ remote (snd r) = remote w /\
  cursor (snd r) =
    match current_salt p with
    | Some _ => (cursor w + 256)%nat
    | None => cursor w
    end /\
  (current_salt p = None ->
   fst r = inl (TypeError "The first argument must be of type string")).
Proof.
  cbv zeta. rewrite createPasswordCheckPayload_run.
  destruct (current_salt p) as [s|]; cbn [Buffer_from_base64].
  - cbn [fst snd after_random calls entropy remote cursor].
    repeat split; discriminate.
  - cbn [fst snd]. repeat split.
Qed.

(** ** [getPasswordParams] *)

(** [getPasswordParams] makes one call and returns an object exactly when
    the API answers with that object and its [srp_id], [srp_B] and
    [current_salt] are all truthy; the object is returned as it came. *)
Theorem getPasswordParams_succeeds_iff (w : world) (d : ApiObject) :
  snd (getPasswordParams w) = logged w account_getPassword /\
  (fst (getPasswordParams w) = inr d <->
   remote w account_getPassword = inr (Some d) /\
   truthy (srp_id d) = true /\
   truthy_string (srp_B d) = true /\
   truthy_string (current_salt d) = true).
Proof.
  rewrite getPasswordParams_run. cbn [fst snd]. split; [reflexivity|].
  destruct (remote w account_getPassword) as [e|[d'|]].
  - split; [discriminate | intros (H & _); discriminate].
  - unfold missing_fields.
    destruct (truthy (srp_id d')) eqn:E1, (truthy_string (srp_B d')) eqn:E2,
             (truthy_string (current_salt d')) eqn:E3; cbn [negb orb];
      (split;
       [ intros H; try discriminate; injection H as <-; repeat split; assumption
       | intros (H & H1 & H2 & H3); injection H as <-; congruence ]).
  - split; [discriminate | intros (H & _); discriminate].
Qed.

(** A field that is there but falsy counts as missing: an [srp_id] that
    is the number 0 or the empty string, an empty [srp_B] or an empty
    [current_salt] makes [getPasswordParams] throw the "Missing required
    fields" error. *)
Theorem getPasswordParams_rejects_falsy_fields (w : world) (d : ApiObject) :
  remote w account_getPassword = inr (Some d) ->
  srp_id d = JNum 0 \/ srp_id d = JStr "" \/
  srp_B d = Some ""%string \/ current_salt d = Some ""%string ->
  fst (getPasswordParams w) =
    inl (Error "Missing required fields in password details response").
Proof.
  intros Hr Hf. rewrite getPasswordParams_run, Hr. cbn [fst].
  assert (Hm : missing_fields d = true).
  { unfold missing_fields. destruct Hf as [H|[H|[H|H]]]; rewrite H; cbn;
      rewrite ?orb_true_r; reflexivity. }
  now rewrite Hm.
Qed.

(** Witness: the identifier 0. *)
Lemma getPasswordParams_rejects_falsy_fields_witness :
  fst (getPasswordParams (world_with x01 (Some (params_of (JNum 0) "1" "cw==")))) =
    inl (Error "Missing required fields in password details response").
Proof.
  exact (getPasswordParams_rejects_falsy_fields
           (world_with x01 (Some (params_of (JNum 0) "1" "cw==")))
           (params_of (JNum 0) "1" "cw==") eq_refl (or_introl eq_refl)).
Defined.

(** ** [getStarsRevenueWithdrawalUrl] *)

Lemma missing_fields_false_salt (d : ApiObject) :
  missing_fields d = false -> exists s, current_salt d = Some s.
Proof.
  unfold missing_fields. destruct (current_salt d) as [s|].
  - intros _. now exists s.
  - cbn. rewrite !orb_true_r. discriminate.
Qed.

(** Every path of the function, as one case analysis on what the API
    answers. *)
Lemma getStarsRevenueWithdrawalUrl_paths {pv : bigInt.Reader}
    (stars : jsval) (password : string) (w : world) :
  getStarsRevenueWithdrawalUrl stars password w =
  let w1 := logged w account_getPassword in
  match remote w account_getPassword with
  | inl e => (inl e, w1)
  | inr None => (inl no_response_error, w1)
  | inr (Some d) =>
      if missing_fields d then (inl missing_fields_error, w1)
      else
        match Buffer_from_base64 (current_salt d) with
        | inl e => (inl e, w1)
        | inr _ =>
            (match bigInt.Integer16 (srp_B d) with
             | inl e => inl e
             | inr _ => inl (concat_error 0)
             end, after_random w1)
        end
  end.
Proof.
  cbv zeta. unfold getStarsRevenueWithdrawalUrl, bind.
  rewrite getPasswordParams_run.
  destruct (remote w account_getPassword) as [e|[d|]]; try reflexivity.
  destruct (missing_fields d); [reflexivity|].
  rewrite createPasswordCheckPayload_run.
  destruct (Buffer_from_base64 (current_salt d)) as [e|salt]; [reflexivity|].
  destruct (bigInt.Integer16 (srp_B d)) as [e|B]; reflexivity.
Qed.

(** When [account.getPassword] throws, or answers nothing, the withdrawal
    request fails with that error, or with the "No response" error,
    after that single call: no random byte is drawn and no payload is
    sent. *)
Theorem withdrawal_needs_parameters {pv : bigInt.Reader}
    (stars : jsval) (password : string) (w : world) (e : exn) :
  remote w account_getPassword = inl e \/
  (remote w account_getPassword = inr None /\ e = no_response_error) ->
  let r := getStarsRevenueWithdrawalUrl stars password w in
  fst (getPasswordParams w) = inl e /\
  fst r = inl e /\
  calls (snd r) = calls w ++ [account_getPassword] /\
  cursor (snd r) = cursor w.
Proof.
  intros H r. subst r.
  rewrite getStarsRevenueWithdrawalUrl_paths, getPasswordParams_run. cbv zeta.
  destruct H as [H|[H ->]]; rewrite H; cbn [fst snd logged calls cursor]; repeat split.
Qed.

(** Witness: a remote that is offline. *)
Lemma withdrawal_needs_parameters_witness :
  fst (getStarsRevenueWithdrawalUrl (pv := bigInt.no_escape) (JNum 5) "p" shifted_world) =
    inl (Error "offline") /\
  calls (snd (getStarsRevenueWithdrawalUrl (pv := bigInt.no_escape) (JNum 5) "p"
                shifted_world)) =
    [account_getPassword; account_getPassword].
Proof.
  destruct (withdrawal_needs_parameters (pv := bigInt.no_escape) (JNum 5) "p"
              shifted_world (Error "offline")
              (or_introl eq_refl)) as (_ & H1 & H2 & _).
  split; [exact H1 | exact H2].
Defined.

(** Once the parameters pass [getPasswordParams] and [srp_B] reads as an
    integer, the salt always decodes and 256 random bytes are drawn, but
    the request ends there, with the [TypeError] that [Buffer.concat]
    throws on line 130: [account.getPassword] stays the only call. *)
Theorem withdrawal_stops_at_the_hashes {pv : bigInt.Reader}
    (stars : jsval) (password : string) (w : world) (d : ApiObject) (B : Z) :
  remote w account_getPassword = inr (Some d) ->
  missing_fields d = false ->
  bigInt.Integer16 (srp_B d) = inr B ->
  let r := getStarsRevenueWithdrawalUrl stars password w in
  (exists salt, Buffer_from_base64 (current_salt d) = inr salt) /\
  fst (createPasswordCheckPayload password d (logged w account_getPassword)) =
    inl (concat_error 0) /\
  fst r = inl (concat_error 0) /\
  calls (snd r) = calls w ++ [account_getPassword] /\
  cursor (snd r) = (cursor w + 256)%nat.
Proof.
  intros Hr Hm HB r. subst r.
  destruct (missing_fields_false_salt d Hm) as (s & Hs).
  rewrite getStarsRevenueWithdrawalUrl_paths, createPasswordCheckPayload_run, Hr, Hm, HB, Hs.
  cbn [Buffer_from_base64]. cbv zeta. cbn [fst snd logged after_random calls cursor].
  split; [eexists; reflexivity | repeat split].
Qed.

(** Witness: the sample parameters. *)
Lemma withdrawal_stops_at_the_hashes_witness :
  fst (getStarsRevenueWithdrawalUrl (pv := bigInt.no_escape) (JNum 5) "p"
         (world_with x01 (Some (params_of (JNum 7) "1" "cw==")))) = inl (concat_error 0) /\
  calls (snd (getStarsRevenueWithdrawalUrl (pv := bigInt.no_escape) (JNum 5) "p"
                (world_with x01 (Some (params_of (JNum 7) "1" "cw=="))))) =
    [account_getPassword].
Proof.
  destruct (withdrawal_stops_at_the_hashes (pv := bigInt.no_escape) (JNum 5) "p"
              (world_with x01 (Some (params_of (JNum 7) "1" "cw==")))
              (params_of (JNum 7) "1" "cw==") 1 eq_refl eq_refl eq_refl)
    as (_ & _ & H1 & H2 & _).
  split; [exact H1 | exact H2].
Defined.

(** When the fetched [srp_B] does not read as a base-16 integer, the
    withdrawal request fails with the error of the parser, after the
    call to [account.getPassword] and the draw of 256 random bytes; the
    withdrawal call is not made. *)
Theorem withdrawal_stops_on_unreadable_challenge {pv : bigInt.Reader}
    (stars : jsval) (password : string) (w : world) (d : ApiObject) (e : exn) :
  remote w account_getPassword = inr (Some d) ->
  missing_fields d = false ->
  bigInt.Integer16 (srp_B d) = inl e ->
  let r := getStarsRevenueWithdrawalUrl stars password w in
  fst r = inl e /\
  calls (snd r) = calls w ++ [account_getPassword] /\
  cursor (snd r) = (cursor w + 256)%nat.
Proof.
  intros Hr Hm HB r. subst r.
  destruct (missing_fields_false_salt d Hm) as (s & Hs).
  rewrite getStarsRevenueWithdrawalUrl_paths, Hr, Hm, HB, Hs. cbn [Buffer_from_base64].
  cbv zeta. cbn [fst snd logged after_random calls cursor]. repeat split.
Qed.

(** Witness: the challenge ["xyz"]. *)
Lemma withdrawal_stops_on_unreadable_challenge_witness :
  fst (getStarsRevenueWithdrawalUrl (pv := bigInt.no_escape) (JNum 5) "p"
         (world_with x01 (Some (params_of (JNum 7) "xyz" "cw==")))) =
    inl (Error "x is not a valid digit in base 16.") /\
  calls (snd (getStarsRevenueWithdrawalUrl (pv := bigInt.no_escape) (JNum 5) "p"
                (world_with x01 (Some (params_of (JNum 7) "xyz" "cw=="))))) =
    [account_getPassword].
Proof.
  destruct (withdrawal_stops_on_unreadable_challenge (pv := bigInt.no_escape) (JNum 5) "p"
              (world_with x01 (Some (params_of (JNum 7) "xyz" "cw==")))
              (params_of (JNum 7) "xyz" "cw==") (Error "x is not a valid digit in base 16.")
              eq_refl eq_refl eq_refl) as (H1 & H2 & _).
  split; [exact H1 | exact H2].
Defined.

(** Every failure of the withdrawal request is one of five: the error
    thrown by [account.getPassword], the "No response" error, the
    "Missing required fields" error, the error of reading [srp_B], or
    the [TypeError] that [Buffer.concat] throws on line 130 once [srp_B]
    is read.  The [TypeError] of decoding an absent salt cannot occur
    behind [getPasswordParams]. *)
Theorem withdrawal_failure_cases {pv : bigInt.Reader}
    (stars : jsval) (password : string) (w : world) (e : exn) :
  fst (getStarsRevenueWithdrawalUrl stars password w) = inl e ->
  remote w account_getPassword = inl e \/
  (remote w account_getPassword = inr None /\ e = no_response_error) \/
  (exists d, remote w account_getPassword = inr (Some d) /\
             missing_fields d = true /\ e = missing_fields_error) \/
  (exists d, remote w account_getPassword = inr (Some d) /\
             missing_fields d = false /\ bigInt.Integer16 (srp_B d) = inl e) \/
  (exists d B, remote w account_getPassword = inr (Some d) /\
               missing_fields d = false /\ bigInt.Integer16 (srp_B d) = inr B /\
               e = concat_error 0).
Proof.
  rewrite getStarsRevenueWithdrawalUrl_paths. cbv zeta.
  destruct (remote w account_getPassword) as [e1|[d|]].
  - cbn [fst]. intros H. injection H as ->. now left.
  - destruct (missing_fields d) eqn:Hm.
    + cbn [fst]. intros H. injection H as <-. right. right. left. now exists d.
    + destruct (missing_fields_false_salt d Hm) as (s & Hs).
      rewrite Hs. cbn [Buffer_from_base64 fst].
      destruct (bigInt.Integer16 (srp_B d)) as [e2|B] eqn:HB; intros H; injection H as <-.
      * right. right. right. left. now exists d.
      * right. right. right. right. now exists d, B.
  - cbn [fst]. intros H. injection H as <-. right. now left.
Qed.

(** Witness: the sample parameters, which end on line 130. *)
Lemma withdrawal_failure_cases_witness :
  exists d B,
    remote (world_with x01 (Some (params_of (JNum 7) "1" "cw=="))) account_getPassword =
      inr (Some d) /\
    missing_fields d = false /\
    bigInt.Integer16 (pv := bigInt.no_escape) (srp_B d) = inr B /\
    fst (getStarsRevenueWithdrawalUrl (pv := bigInt.no_escape) (JNum 5) "p"
           (world_with x01 (Some (params_of (JNum 7) "1" "cw==")))) = inl (concat_error 0).
Proof.
  assert (Hrun : fst (getStarsRevenueWithdrawalUrl (pv := bigInt.no_escape) (JNum 5) "p"
                        (world_with x01 (Some (params_of (JNum 7) "1" "cw==")))) =
                 inl (concat_error 0))
    by (rewrite getStarsRevenueWithdrawalUrl_paths; reflexivity).
  destruct (withdrawal_failure_cases (pv := bigInt.no_escape) (JNum 5) "p"
              (world_with x01 (Some (params_of (JNum 7) "1" "cw==")))
              (concat_error 0) Hrun)
    as [H|[(H & _)|[(d & Hd & Hm & _)|[(d & Hd & _ & H)|(d & B & Hd & Hm & HB & _)]]]].
  - discriminate H.
  - discriminate H.
  - injection Hd as <-. discriminate Hm.
  - injection Hd as <-. discriminate H.
  - exists d, B. split; [exact Hd|]. split; [exact Hm|]. split; [exact HB | exact Hrun].
Defined.

(** The withdrawal request never succeeds and never reaches its second
    call: whatever the remote answers, the request ends with an
    exception, [account.getPassword] is the only call made, and at most
    256 random bytes are drawn. *)
Theorem withdrawal_never_requested {pv : bigInt.Reader}
    (stars : jsval) (password : string) (w : world) :
  let r := getStarsRevenueWithdrawalUrl stars password w in
  (exists e : exn, fst r = inl e) /\
  calls (snd r) = calls w ++ [account_getPassword] /\
  (cursor (snd r) = cursor w \/ cursor (snd r) = (cursor w + 256)%nat) /\
  entropy (snd r) = entropy w /\ remote (snd r) = remote w.
Proof.
  cbv zeta. rewrite getStarsRevenueWithdrawalUrl_paths. cbv zeta.
  destruct (remote w account_getPassword) as [e|[d|]].
  - cbn [fst snd logged calls cursor entropy remote].
    split; [now exists e|]. split; [reflexivity|]. split; [now left | now split].
  - destruct (missing_fields d).
    + cbn [fst snd logged calls cursor entropy remote].
      split; [now eexists|]. split; [reflexivity|]. split; [now left | now split].
    + destruct (Buffer_from_base64 (current_salt d)) as [e|salt].
      * cbn [fst snd logged calls cursor entropy remote].
        split; [now exists e|]. split; [reflexivity|]. split; [now left | now split].
      * cbn [fst snd logged after_random calls cursor entropy remote].
        split; [destruct (bigInt.Integer16 (srp_B d)) as [e|B]; now eexists|].
        split; [reflexivity|]. split; [now right | now split].
  - cbn [fst snd logged calls cursor entropy remote].
    split; [now eexists|]. split; [reflexivity|]. split; [now left | now split].
Qed.

(** ** The handler of [pre_checkout_query] *)

(** Every path of the handler: the first answer approves the payload
    ["{}"] and refuses any other; when sending it throws, the [catch]
    sends the "Failed to process payment." refusal, and the handler ends
    as that second call does. *)
Lemma on_pre_checkout_query_paths (q : PreCheckoutQuery) (c : chat) :
  let first :=
    if String.eqb (q_invoice_payload q) "{}"
    then answerPreCheckoutQuery true None
    else answerPreCheckoutQuery false (Some "Invalid payment payload."%string) in
  let failed := answerPreCheckoutQuery false (Some "Failed to process payment."%string) in
  on_pre_checkout_query q c =
  match telegram c (answers c) first with
  | inr _ => (inr tt, {| answers := answers c ++ [first]; telegram := telegram c |})
  | inl _ =>
      (telegram c (answers c ++ [first]) failed,
       {| answers := answers c ++ [first; failed]; telegram := telegram c |})
  end.
Proof.
  cbv zeta. unfold on_pre_checkout_query, try_catch, bind_in, ret_in, ctx_answerPreCheckoutQuery.
  destruct (String.eqb (q_invoice_payload q) "{}"); cbn [negb];
    destruct (telegram c (answers c) _) as [e|[]]; cbn [answers telegram];
    rewrite <- ?app_assoc; reflexivity.
Qed.

(** The handler sends one answer or two, and an approval is among them
    exactly when the invoice payload is the text ["{}"]; every other
    answer is a refusal with a message. *)
Theorem pre_checkout_approves_only_empty_object (q : PreCheckoutQuery) (c : chat) :
  exists sent,
    answers (snd (on_pre_checkout_query q c)) = answers c ++ sent /\
    (1 <= List.length sent <= 2)%nat /\
    (In (answerPreCheckoutQuery true None) sent <-> q_invoice_payload q = "{}"%string) /\
    (forall ok message, In (answerPreCheckoutQuery ok message) sent ->
       (ok = true /\ message = None) \/ (ok = false /\ message <> None)).
Proof.
  rewrite on_pre_checkout_query_paths. cbv zeta.
  destruct (String.eqb_spec (q_invoice_payload q) "{}") as [E|E];
    destruct (telegram c (answers c) _) as [e|u]; cbn [snd answers];
    eexists; (split; [reflexivity|]); (split; [cbn; lia|]); split.
  all: try (split; [intros _; exact E | intros _; cbn; tauto]).
  all: try (split; [cbn; intros H; repeat destruct H as [H|H]; try discriminate; contradiction
                   | intros H; contradiction]).
  all: intros ok message H; cbn in H; repeat destruct H as [H|H]; try contradiction;
       injection H as <- <-; (now left) || (right; split; [reflexivity | discriminate]).
Qed.

(** When Telegram takes every answer, the handler ends normally after a
    single answer: the approval for the payload ["{}"], the "Invalid
    payment payload." refusal otherwise. *)
Theorem pre_checkout_single_answer (q : PreCheckoutQuery) (c : chat) :
  (forall sent call, telegram c sent call = inr tt) ->
  fst (on_pre_checkout_query q c) = inr tt /\
  answers (snd (on_pre_checkout_query q c)) =
    answers c ++
    [if String.eqb (q_invoice_payload q) "{}"
     then answerPreCheckoutQuery true None
     else answerPreCheckoutQuery false (Some "Invalid payment payload."%string)].
Proof.
  intros Hok. rewrite on_pre_checkout_query_paths. cbv zeta. rewrite Hok.
  split; reflexivity.
Qed.

Lemma pre_checkout_single_answer_witness :
  let c := {| answers := []; telegram := fun _ _ => inr tt |} in
  answers (snd (on_pre_checkout_query
                  {| q_id := "1"; q_from_username := Some "ann"%string;
                     q_invoice_payload := "{}" |} c)) =
    [answerPreCheckoutQuery true None] /\
  answers (snd (on_pre_checkout_query
                  {| q_id := "2"; q_from_username := None;
                     q_invoice_payload := "{ }" |} c)) =
    [answerPreCheckoutQuery false (Some "Invalid payment payload."%string)].
Proof.
  intros c. split.
  - exact (proj2 (pre_checkout_single_answer _ c (fun _ _ => eq_refl))).
  - exact (proj2 (pre_checkout_single_answer _ c (fun _ _ => eq_refl))).
Defined.

(** When sending the first answer throws, even the approval, the handler
    goes on to send the "Failed to process payment." refusal, and it ends
    as that call does: normally if it is taken, with its error if not. *)
Theorem pre_checkout_refuses_after_failed_answer
    (q : PreCheckoutQuery) (c : chat) (e : exn) :
  let first :=
    if String.eqb (q_invoice_payload q) "{}"
    then answerPreCheckoutQuery true None
    else answerPreCheckoutQuery false (Some "Invalid payment payload."%string) in
  let failed := answerPreCheckoutQuery false (Some "Failed to process payment."%string) in
  telegram c (answers c) first = inl e ->
  answers (snd (on_pre_checkout_query q c)) = answers c ++ [first; failed] /\
  fst (on_pre_checkout_query q c) = telegram c (answers c ++ [first]) failed.
Proof.
  cbv zeta. intros H. rewrite on_pre_checkout_query_paths. cbv zeta. rewrite H.
  split; reflexivity.
Qed.

(** Witness: a chat that throws on the first call only. *)
Lemma pre_checkout_refuses_after_failed_answer_witness :
  let c := {| answers := [];
              telegram := fun sent _ =>
                match sent with
                | [] => inl (Error "timeout")
                | _ => inr tt
                end |} in
  let r := on_pre_checkout_query
             {| q_id := "1"; q_from_username := None; q_invoice_payload := "{}" |} c in
  answers (snd r) =
    [answerPreCheckoutQuery true None;
     answerPreCheckoutQuery false (Some "Failed to process payment."%string)] /\
  fst r = inr tt.
Proof.
  intros c r.
  exact (pre_checkout_refuses_after_failed_answer
           {| q_id := "1"; q_from_username := None; q_invoice_payload := "{}" |} c
           (Error "timeout") eq_refl).
Defined.

(** ** [handlePayWithStars] *)

(** The handler never rejects: whatever the server and the WebApp do, it
    ends normally.  It sends the one POST request to the invoice
    endpoint with the skin name and the price, and it opens an invoice,
    at most one, exactly when the response is [ok] and its JSON body is
    an object: the invoice opened is the [invoiceLink] of that body. *)
Theorem handlePayWithStars_never_rejects (skinName : string) (starsPrice : Z) (b : browser) :
  let r := handlePayWithStars skinName starsPrice b in
  fst r = inr tt /\
  requests (snd r) = requests b ++ [create_invoice_request skinName starsPrice] /\
  invoices (snd r) =
    invoices b ++
    match server b (create_invoice_request skinName starsPrice) with
    | inr response =>
        if ok response
        then match json response with
             | inr (Some invoiceLink) => [invoiceLink]
             | _ => []
             end
        else []
    | inl _ => []
    end.
Proof.
  cbv zeta.
  unfold handlePayWithStars, try_catch, bind_in, throw_in, ret_in, fetch, WebApp_openInvoice.
  destruct (server b (create_invoice_request skinName starsPrice)) as [e|response];
    [cbn [fst snd requests invoices]; now rewrite app_nil_r|].
  destruct (ok response); cbn [negb];
    [|cbn [fst snd requests invoices]; now rewrite app_nil_r].
  destruct (json response) as [e|[invoiceLink|]];
    try (cbn [fst snd requests invoices]; now rewrite app_nil_r).
  cbn [server webapp requests invoices].
  destruct (webapp b invoiceLink) as [e|[]]; cbn [fst snd requests invoices];
    (split; [reflexivity|split; reflexivity]).
Qed.
